(** * Chapman-Kolmogorov validator (sktime.markovprocess)

    A shallow embedding of
    [sktime/markovprocess/chapman_kolmogorov_validator.py]:
    the [memberships] and [test_model] property setters of
    [ChapmanKolmogorovValidator], [_compute_observables],
    [_compute_observables_conf] and [cktest], together with the part of
    numpy they rely on (shapes, [None] as an index, advanced indexing,
    broadcasting, [np.dot], in-place division).

    Numbers: a float64 is modelled as an exact rational or one of the IEEE
    special values.  Rounding and the sign of zero are not modelled;
    division by zero, infinities and NaN are.  A statement about a sum
    against a tolerance therefore names the conditions under which the
    rounded sum gives the same verdict: entries that are not negative (no
    cancellation), a bounded number of them, and a margin between what is
    assumed and what is concluded. *)

From Stdlib Require Import QArith Qabs ZArith String Lia Lqa.
From stdpp Require Import base list.

(** ** float64, idealised *)

Inductive float : Type :=
  | Fin (q : Q)
  | PInf
  | NInf
  | NaN.

(** Every arithmetic result is stored in lowest terms, so that two finite
    results are equal as rationals exactly when they are equal terms. *)
Definition fin (q : Q) : float := Fin (Qred q).

Definition fzero : float := Fin 0.
Definition fone : float := Fin 1.

Definition fadd (x y : float) : float :=
  match x, y with
  | NaN, _ | _, NaN => NaN
  | Fin a, Fin b => fin (a + b)
  | PInf, NInf | NInf, PInf => NaN
  | PInf, _ | _, PInf => PInf
  | NInf, _ | _, NInf => NInf
  end.

Definition fmul (x y : float) : float :=
  match x, y with
  | NaN, _ | _, NaN => NaN
  | Fin a, Fin b => fin (a * b)
  | Fin a, PInf | PInf, Fin a =>
      match (a ?= 0)%Q with Eq => NaN | Gt => PInf | Lt => NInf end
  | Fin a, NInf | NInf, Fin a =>
      match (a ?= 0)%Q with Eq => NaN | Gt => NInf | Lt => PInf end
  | PInf, PInf | NInf, NInf => PInf
  | PInf, NInf | NInf, PInf => NInf
  end.

(** numpy float division: [x / 0] is an infinity, [0 / 0] is NaN, and no
    exception is raised (numpy only emits a RuntimeWarning). *)
Definition fdiv (x y : float) : float :=
  match x, y with
  | NaN, _ | _, NaN => NaN
  | Fin a, Fin b =>
      match (b ?= 0)%Q with
      | Eq => match (a ?= 0)%Q with Eq => NaN | Gt => PInf | Lt => NInf end
      | _ => fin (a / b)
      end
  | Fin _, (PInf | NInf) => fzero
  | PInf, Fin b => match (b ?= 0)%Q with Lt => NInf | _ => PInf end
  | NInf, Fin b => match (b ?= 0)%Q with Lt => PInf | _ => NInf end
  | (PInf | NInf), (PInf | NInf) => NaN
  end.

Definition is_fin (x : float) : Prop :=
  match x with Fin _ => True | _ => False end.

Definition fval (x : float) : Q :=
  match x with Fin q => q | _ => 0%Q end.

(** [np.isclose(a, b)] with the default [rtol=1e-05], [atol=1e-08]:
    [|a - b| <= atol + rtol * |b|]; equal infinities are close, NaN is
    close to nothing. *)
Definition rtol : Q := 1 # 100000.
Definition atol : Q := 1 # 100000000.

Definition isclose (a b : float) : bool :=
  match a, b with
  | Fin x, Fin y => Qle_bool (Qabs (x - y)) (atol + rtol * Qabs y)
  | PInf, PInf | NInf, NInf => true
  | _, _ => false
  end.

(** ** Python exceptions and results *)

Inductive exn : Type :=
  | AssertionError
  | AttributeError
  | IndexError
  | ValueError
  | NotImplementedError
  | OtherError (name : string).

Inductive result (A : Type) : Type :=
  | Ok (a : A)
  | Raise (e : exn).
Arguments Ok {A} a.
Arguments Raise {A} e.

Definition rbind {A B} (r : result A) (k : A -> result B) : result B :=
  match r with
  | Ok a => k a
  | Raise e => Raise e
  end.

Declare Scope result_scope.
Delimit Scope result_scope with res.
Notation "'do' x <- r ; k" := (rbind r (fun x => k))
  (at level 10, x name, r at level 100, k at level 200) : result_scope.

(** [for x in xs: ...] collecting one value per iteration; the first
    exception ends the loop. *)
Fixpoint rmap {A B} (f : A -> result B) (xs : list A) : result (list B) :=
  match xs with
  | [] => Ok []
  | x :: xs' =>
      (do y <- f x; do ys <- rmap f xs'; Ok (y :: ys))%res
  end.

Definition from_option {A} (e : exn) (o : option A) : result A :=
  match o with
  | Some a => Ok a
  | None => Raise e
  end.

(** ** numpy arrays of up to two dimensions *)

Definition matrix := list (list float).

Inductive ndarray : Type :=
  | Scalar (x : float)
  | Vec (v : list float)
  | Mat (rows : list (list float)).

Module np.

Definition sum (v : list float) : float := foldr fadd fzero v.

(** The width of a nested sequence, read from its first row; an array
    without rows is taken to have no columns (numpy's shape [(0, k)] has
    no counterpart here). *)
Definition ncols {A} (rows : list (list A)) : nat :=
  match rows with
  | [] => 0
  | r :: _ => length r
  end.

(** A nested sequence is an array only if all rows have one length. *)
Definition rectangular {A} (rows : list (list A)) : bool :=
  forallb (fun r => length r =? ncols rows) rows.

Definition column {A} (j : nat) (rows : list (list A)) : option (list A) :=
  mapM (fun r : list A => r !! j) rows.

(** Column [j] read entry by entry; a row too short to have one gives NaN
    (no row of an array is). *)
Definition col (j : nat) (rows : matrix) : list float :=
  map (fun r => default NaN (r !! j)) rows.

(** [a.sum(axis=1)] *)
Definition sum_axis1 (rows : matrix) : list float := map sum rows.

(** [a.sum(axis=0)] *)
Definition sum_axis0 (rows : matrix) : list float :=
  map (fun j => sum (col j rows)) (seq 0 (ncols rows)).

(** [a.sum()] *)
Definition sum_all (a : ndarray) : float :=
  match a with
  | Scalar x => x
  | Vec v => sum v
  | Mat rows => sum (map sum rows)
  end.

(** [np.zeros(n, dtype=int)] *)
Definition zeros (n : nat) : list nat := replicate n 0.
Definition ones (n : nat) : list float := replicate n fone.
Definition arange (n : nat) : list nat := seq 0 n.

Definition eye (n : nat) : matrix :=
  map (fun i => map (fun j => if Nat.eqb i j then fone else fzero) (seq 0 n))
      (seq 0 n).

(** [np.allclose(a, b)] for two one-dimensional arrays of one length. *)
Definition allclose (a b : list float) : bool :=
  forallb (fun p : float * float => isclose p.1 p.2) (zip a b).

(** [a /= s] for a scalar [s]. *)
Definition div_scalar (a : ndarray) (s : float) : ndarray :=
  match a with
  | Scalar x => Scalar (fdiv x s)
  | Vec v => Vec (map (fun x => fdiv x s) v)
  | Mat rows => Mat (map (map (fun x => fdiv x s)) rows)
  end.

Definition inner (a b : list float) : float :=
  sum (zip_with fmul a b).

Definition scale (x : float) (v : list float) : list float :=
  map (fmul x) v.

(** [np.dot(a, b)].  Two vectors give their inner product; with a matrix
    on either side the last axis of [a] is contracted with the first
    axis of [b] (the only axis when [b] is a vector); a mismatch of the
    contracted lengths raises ValueError. *)
Definition dot (a b : ndarray) : result ndarray :=
  match a, b with
  | Scalar x, Scalar y => Ok (Scalar (fmul x y))
  | Scalar x, Vec v | Vec v, Scalar x => Ok (Vec (scale x v))
  | Scalar x, Mat rows | Mat rows, Scalar x => Ok (Mat (map (scale x) rows))
  | Vec u, Vec v =>
      if length u =? length v then Ok (Scalar (inner u v))
      else Raise ValueError
  | Mat rows, Vec v =>
      if ncols rows =? length v then Ok (Vec (map (fun r => inner r v) rows))
      else Raise ValueError
  | Vec u, Mat rows =>
      if length u =? length rows
      then Ok (Vec (map (fun j => inner u (col j rows)) (seq 0 (ncols rows))))
      else Raise ValueError
  | Mat ra, Mat rb =>
      if ncols ra =? length rb
      then Ok (Mat (map (fun r =>
                      map (fun j => inner r (col j rb)) (seq 0 (ncols rb))) ra))
      else Raise ValueError
  end.

(** Storing an array into one float cell ([a[i, j] = r], or an item
    consumed by [np.fromiter]): an array holding exactly one element is
    converted to that element, any other array raises ValueError
    ("setting an array element with a sequence"). *)
Definition as_scalar (a : ndarray) : result float :=
  match a with
  | Scalar x => Ok x
  | Vec [x] => Ok x
  | Mat [[x]] => Ok x
  | _ => Raise ValueError
  end.

End np.

(** ** Collaborators: fitted models *)

Record TransitionCountModel : Type := {
  active_set : option (list nat)
}.

(** A fitted model as the validator sees it.  [propagate] and [pcca] are
    black boxes that may raise; [pcca n] stands for
    [model.pcca(n).memberships]. *)
Record MarkovStateModel : Type := {
  n_states : nat;
  stationary_distribution : list float;
  count_model : option TransitionCountModel;
  propagate : ndarray -> Z -> result ndarray;
  pcca : nat -> result ndarray
}.

(** What [hasattr(model, 'prior')] distinguishes: a point estimate, or a
    posterior wrapper exposing [prior] and [samples] only. *)
Inductive Model : Type :=
  | Point (m : MarkovStateModel)
  | BayesianPosterior (prior : MarkovStateModel) (samples : list MarkovStateModel).

(** [if hasattr(model, 'prior'): model = model.prior] *)
Definition unwrap_prior (model : Model) : MarkovStateModel :=
  match model with
  | Point m => m
  | BayesianPosterior prior _ => prior
  end.

(** [model.prior] *)
Definition attr_prior (model : Model) : result MarkovStateModel :=
  match model with
  | Point _ => Raise AttributeError
  | BayesianPosterior prior _ => Ok prior
  end.

(** [model.samples] *)
Definition attr_samples (model : Model) : result (list MarkovStateModel) :=
  match model with
  | Point _ => Raise AttributeError
  | BayesianPosterior _ samples => Ok samples
  end.

(** [test_model.pcca(nsets).memberships] *)
Definition attr_pcca (model : Model) (nsets : nat) : result ndarray :=
  match model with
  | Point m => pcca m nsets
  | BayesianPosterior _ _ => Raise AttributeError
  end.

(** [test_model.n_states] *)
Definition attr_n_states (model : Model) : result nat :=
  match model with
  | Point m => Ok (n_states m)
  | BayesianPosterior _ _ => Raise AttributeError
  end.

Definition dtrajs := list (list nat).

(** Modelled from the spec: the estimator class lives in [sktime.base],
    outside the sources; "given trajectory data and a lag time, returns a
    newly fitted model instance". *)
Record Estimator : Type := {
  fit_at : dtrajs -> Z -> result Model
}.

(** The [mlags] argument: [None], a single int, or an int array. *)
Inductive mlags_arg : Type :=
  | MlagsNone
  | MlagsInt (n : Z)
  | MlagsArray (l : list Z).

(** ** The validator object *)

(** The instance attributes.  An attribute that has not been assigned yet
    is [None]; reading it raises AttributeError. *)
Record ChapmanKolmogorovValidator : Type := mkCK {
  self_memberships : option matrix;        (* self._memberships *)
  self_n_states : option nat;              (* self.n_states *)
  self_nsets : option nat;                 (* self.nsets *)
  self_err_est : option bool;              (* self.err_est *)
  self_test_model : option MarkovStateModel; (* self._test_model *)
  self_P0 : option matrix;                 (* self.P0 *)
  self_full2active : option (list nat);    (* self._full2active *)
  self_test_estimator : option Estimator;  (* self.test_estimator *)
  self_conf : option float;                (* self.conf *)
  self_mlags : option mlags_arg            (* self.mlags *)
}.

Definition blank : ChapmanKolmogorovValidator :=
  mkCK None None None None None None None None None None.

Definition set_memberships_attr (m : matrix) (s : ChapmanKolmogorovValidator) :=
  mkCK (Some m) (self_n_states s) (self_nsets s) (self_err_est s)
       (self_test_model s) (self_P0 s) (self_full2active s)
       (self_test_estimator s) (self_conf s) (self_mlags s).

Definition set_shape_attrs (n m : nat) (s : ChapmanKolmogorovValidator) :=
  mkCK (self_memberships s) (Some n) (Some m) (self_err_est s)
       (self_test_model s) (self_P0 s) (self_full2active s)
       (self_test_estimator s) (self_conf s) (self_mlags s).

Definition set_err_est_attr (b : bool) (s : ChapmanKolmogorovValidator) :=
  mkCK (self_memberships s) (self_n_states s) (self_nsets s) (Some b)
       (self_test_model s) (self_P0 s) (self_full2active s)
       (self_test_estimator s) (self_conf s) (self_mlags s).

Definition set_test_model_attr (m : MarkovStateModel) (s : ChapmanKolmogorovValidator) :=
  mkCK (self_memberships s) (self_n_states s) (self_nsets s) (self_err_est s)
       (Some m) (self_P0 s) (self_full2active s)
       (self_test_estimator s) (self_conf s) (self_mlags s).

Definition set_P0_attr (p : matrix) (s : ChapmanKolmogorovValidator) :=
  mkCK (self_memberships s) (self_n_states s) (self_nsets s) (self_err_est s)
       (self_test_model s) (Some p) (self_full2active s)
       (self_test_estimator s) (self_conf s) (self_mlags s).

Definition set_full2active_attr (t : list nat) (s : ChapmanKolmogorovValidator) :=
  mkCK (self_memberships s) (self_n_states s) (self_nsets s) (self_err_est s)
       (self_test_model s) (self_P0 s) (Some t)
       (self_test_estimator s) (self_conf s) (self_mlags s).

Definition set_base_attrs (e : Estimator) (c : float) (l : mlags_arg)
    (s : ChapmanKolmogorovValidator) :=
  mkCK (self_memberships s) (self_n_states s) (self_nsets s) (self_err_est s)
       (self_test_model s) (self_P0 s) (self_full2active s)
       (Some e) (Some c) (Some l).

(** ** Methods: state passing with exceptions

    A method body maps the object before the call to its outcome and the
    object after the call.  An exception keeps the assignments made before
    it was raised. *)

Definition method (A : Type) : Type :=
  ChapmanKolmogorovValidator -> result A * ChapmanKolmogorovValidator.

Definition unit_m {A} (a : A) : method A := fun s => (Ok a, s).

Definition bind_m {A B} (c : method A) (k : A -> method B) : method B :=
  fun s =>
    match c s with
    | (Ok a, s') => k a s'
    | (Raise e, s') => (Raise e, s')
    end.

Declare Scope method_scope.
Delimit Scope method_scope with method.
Bind Scope method_scope with method.
Notation "'do' x <- c ; k" := (bind_m c (fun x => k))
  (at level 10, x name, c at level 100, k at level 200) : method_scope.
Notation "c ;; k" := (bind_m c (fun _ => k))
  (at level 100, k at level 200, right associativity) : method_scope.

(** A computation that does not touch the object. *)
Definition lift {A} (r : result A) : method A := fun s => (r, s).

(** [self.name] *)
Definition attr {A} (field : ChapmanKolmogorovValidator -> option A) : method A :=
  fun s => (from_option AttributeError (field s), s).

(** [self.name = value] *)
Definition assign (upd : ChapmanKolmogorovValidator -> ChapmanKolmogorovValidator)
    : method unit :=
  fun s => (Ok tt, upd s).

(** [assert cond] *)
Definition py_assert (cond : bool) : method unit :=
  lift (if cond then Ok tt else Raise AssertionError).

(** [for x in xs: ...], one collected value per iteration. *)
Fixpoint for_each {A B} (body : A -> method B) (xs : list A) : method (list B) :=
  match xs with
  | [] => unit_m []
  | x :: xs' =>
      (do y <- body x; do ys <- for_each body xs'; unit_m (y :: ys))%method
  end.

(** ** numpy indexing *)

(** What stands between the brackets of [a[subset]]. *)
Inductive index : Type :=
  | INone                         (* None, that is np.newaxis *)
  | IVec (l : list nat)           (* an integer array of one dimension *)
  | IMat (l : list (list nat)).   (* an integer array of two dimensions *)

(** [a[l]] for an integer array [l]: a copy; an index past the end raises
    IndexError. *)
Definition gather {A} (a : list A) (l : list nat) : result (list A) :=
  rmap (fun k => from_option IndexError (a !! k)) l.

(** [np.max(a)]; an empty array raises ValueError. *)
Definition np_max (a : list nat) : result nat :=
  match a with
  | [] => Raise ValueError
  | _ => Ok (max_list a)
  end.

(** Element-wise stores [t[idx[k]] = vals[k]], in order. *)
Fixpoint scatter (t : list nat) (idx vals : list nat) : list nat :=
  match idx, vals with
  | f :: idx', a :: vals' => scatter (<[f := a]> t) idx' vals'
  | _, _ => t
  end.

(** [t[idx] = vals]: [vals] has the length of [idx] or is broadcast from
    length one; otherwise ValueError, and an index past the end raises
    IndexError. *)
Definition assign_at (t : list nat) (idx vals : list nat) : result (list nat) :=
  if forallb (fun f => f <? length t) idx then
    if length vals =? length idx then Ok (scatter t idx vals)
    else match vals with
         | [a] => Ok (scatter t idx (replicate (length idx) a))
         | _ => Raise ValueError
         end
  else Raise IndexError.

(** [M * pi[:, None]]: shapes (n, m) and (k, 1) broadcast when [k = n],
    [k = 1] or [n = 1]. *)
Definition mul_column (M : matrix) (pi : list float) : result matrix :=
  if length pi =? length M then
    Ok (zip_with (fun row p => map (fun x => fmul x p) row) M pi)
  else match pi, M with
       | [p], _ => Ok (map (map (fun x => fmul x p)) M)
       | _, [row] => Ok (map (fun p => map (fun x => fmul x p) row) pi)
       | _, _ => Raise ValueError
       end.

(** [P /= c] for a matrix [P] of shape (n, m) and [c] of shape (m,). *)
Definition div_rows (P : matrix) (c : list float) : matrix :=
  map (fun row => zip_with fdiv row c) P.

(** ** The [memberships] setter *)

(** Modelled from the spec: [ensure_ndarray] lives in [sktime.util],
    outside the sources; with [ndim=2] it "accepts a two-dimensional
    numeric array" and fails otherwise. *)
Definition ensure_ndarray (value : ndarray) : result matrix :=
  match value with
  | Mat rows => if np.rectangular rows then Ok rows else Raise ValueError
  | _ => Raise ValueError
  end.

Definition memberships_setter (value : ndarray) : method unit :=
  (do m <- lift (ensure_ndarray value);
   assign (set_memberships_attr m) ;;
   do rows <- attr self_memberships;
   assign (set_shape_attrs (length rows) (np.ncols rows)) ;;
   do rows <- attr self_memberships;
   do n <- attr self_n_states;
   py_assert (np.allclose (np.sum_axis1 rows) (np.ones n)))%method.

(** ** The [test_model] setter *)

Definition test_model_setter (test_model : Model) : method unit :=
  (do _ <- attr self_memberships;
   let test_model := unwrap_prior test_model in
   do M <- attr self_memberships;
   py_assert (length M =? n_states test_model) ;;
   assign (set_test_model_attr test_model) ;;
   do M <- attr self_memberships;
   do P0 <- lift (mul_column M (stationary_distribution test_model));
   let P0 := div_rows P0 (np.sum_axis0 P0) in
   assign (set_P0_attr P0) ;;
   do cm <- lift (from_option AttributeError (count_model test_model));
   let active_set :=
     match active_set cm with
     | None => np.arange (n_states test_model)
     | Some a => a
     end in
   do top <- lift (np_max active_set);
   assign (set_full2active_attr (np.zeros (top + 1))) ;;
   do t <- attr self_full2active;
   do t' <- lift (assign_at t active_set (np.arange (n_states test_model)));
   assign (set_full2active_attr t'))%method.

(** ** Views and copies

    [self.P0[:, i]] and [p0[None]] are basic indexing: they give windows
    on the memory of [self.P0].  [p0[l]] for an integer array [l] is
    advanced indexing: it gives a new array.  An in-place operator on a
    window writes into [self.P0]. *)

Inductive buffer : Type :=
  | ViewP0 (i : nat)      (* column i of self.P0 under a new leading axis *)
  | Fresh (a : ndarray).  (* an array of its own *)

(** [self.P0[:, i]], read out. *)
Definition P0_column (i : nat) : method (list float) :=
  (do P <- attr self_P0;
   lift (from_option IndexError (np.column i P)))%method.

(** The current contents of a buffer. *)
Definition contents (b : buffer) : method ndarray :=
  match b with
  | ViewP0 i => (do c <- P0_column i; unit_m (Mat [c]))%method
  | Fresh a => unit_m a
  end.

(** Store [c] as column [i] of the matrix [P]. *)
Definition write_column (i : nat) (c : list float) (P : matrix) : matrix :=
  zip_with (fun row x => <[i := x]> row) P c.

(** [p0sub = p0[subset]] where [p0 = self.P0[:, i]]. *)
Definition index_column (i : nat) (subset : index) : method buffer :=
  (do p0 <- P0_column i;
   match subset with
   | INone => unit_m (ViewP0 i)
   | IVec l => do v <- lift (gather p0 l); unit_m (Fresh (Vec v))
   | IMat ll => do rows <- lift (rmap (gather p0) ll); unit_m (Fresh (Mat rows))
   end)%method.

(** [p0sub /= p0sub.sum()] *)
Definition renormalize (b : buffer) : method buffer :=
  (do a <- contents b;
   let s := np.sum_all a in
   match b with
   | Fresh _ => unit_m (Fresh (np.div_scalar a s))
   | ViewP0 i =>
       do P <- attr self_P0;
       do c <- P0_column i;
       assign (set_P0_attr (write_column i (map (fun x => fdiv x s) c) P)) ;;
       unit_m (ViewP0 i)
   end)%method.

(** [self.memberships[subset, j]] *)
Definition memberships_at (subset : index) (j : nat) : method ndarray :=
  (do M <- attr self_memberships;
   let cell k := from_option IndexError (M !! k ≫= fun row => row !! j) in
   match subset with
   | INone => do row <- lift (from_option IndexError (M !! j)); unit_m (Mat [row])
   | IVec l => do v <- lift (rmap cell l); unit_m (Vec v)
   | IMat ll => do rows <- lift (rmap (rmap cell) ll); unit_m (Mat rows)
   end)%method.

(** [self._full2active[model.count_model.active_set]] when the model has a
    count model, [None] otherwise. *)
Definition find_subset (model : MarkovStateModel) : method index :=
  match count_model model with
  | Some cm =>
      (do t <- attr self_full2active;
       match active_set cm with
       | Some a => do l <- lift (gather t a); unit_m (IVec l)
       | None => unit_m (IMat [t])
       end)%method
  | None => unit_m INone
  end.

(** The inner loop: [pk_on_set[i, j] = np.dot(pksub, self.memberships[subset, j])]
    for [j] in [range(self.nsets)]. *)
Definition map_onto_sets (subset : index) (pksub : ndarray) (nsets : nat)
    : method (list float) :=
  for_each (fun j =>
    (do col <- memberships_at subset j;
     do d <- lift (np.dot pksub col);
     lift (np.as_scalar d))%method) (seq 0 nsets).

(** ** [_compute_observables] *)

(** The body of the outer loop: row [i] of [pk_on_set]. *)
Definition predicted_row (model : MarkovStateModel) (mlag : Z) (subset : index)
    (i : nat) : method (list float) :=
  (do p0sub <- index_column i subset;
   do p0sub <- match subset with
               | INone => unit_m p0sub
               | _ => renormalize p0sub
               end;
   do arg <- contents p0sub;
   do pksub <- lift (propagate model arg mlag);
   do nsets <- attr self_nsets;
   map_onto_sets subset pksub nsets)%method.

Definition _compute_observables (model : Model) (mlag : Z) : method matrix :=
  (do nsets <- attr self_nsets;
   let model := unwrap_prior model in
   do subset <- find_subset model;
   do nsets' <- attr self_nsets;
   for_each (predicted_row model mlag subset) (seq 0 nsets'))%method.

(** ** [_compute_observables_conf] *)

Section Confidence.

(** [sktime.util.confidence_interval(samples, conf=level)], an external
    routine returning the pair of bounds. *)
Variable confidence_interval : list float -> float -> float * float.

Definition _compute_observables_conf (model : Model) (mlag : Z) (conf : float)
    : method (matrix * matrix) :=
  (do prior <- lift (attr_prior model);
   do subset <- find_subset prior;
   do n <- attr self_nsets;
   do cells <- for_each (fun i =>
     do p0sub <- index_column i subset;
     do p0sub <- renormalize p0sub;
     do samples <- lift (attr_samples model);
     do pksub_samples <- for_each (fun m =>
       do arg <- contents p0sub;
       lift (propagate m arg mlag)) samples;
     for_each (fun j =>
       do pk_on_set_samples <- for_each (fun pksub =>
         do col <- memberships_at subset j;
         do d <- lift (np.dot pksub col);
         lift (np.as_scalar d)) pksub_samples;
       do level <- attr self_conf;
       unit_m (confidence_interval pk_on_set_samples level)) (seq 0 n)) (seq 0 n);
   unit_m (map (map fst) cells, map (map snd) cells))%method.

End Confidence.

(** ** Construction *)

(** Modelled from the spec: [LaggedModelValidator.__init__] lives in
    [sktime.lagged_model_validator], outside the sources; the validator
    "holds a reference and derives P0 and the remap table from it whenever
    it is set", so the base initialiser stores the model through the
    [test_model] setter and keeps the remaining arguments. *)
Definition base_init (test_model : Model) (test_estimator : Estimator)
    (conf : float) (mlags : mlags_arg) : method unit :=
  (test_model_setter test_model ;;
   assign (set_base_attrs test_estimator conf mlags))%method.

Definition __init__ (test_model : Model) (test_estimator : Estimator)
    (memberships : ndarray) (mlags : mlags_arg) (conf : float) (err_est : bool)
    : method unit :=
  (memberships_setter memberships ;;
   assign (set_err_est_attr err_est) ;;
   base_init test_model test_estimator conf mlags)%method.

(** [ChapmanKolmogorovValidator(...)]: the object exists only if
    [__init__] returns. *)
Definition new (test_model : Model) (test_estimator : Estimator)
    (memberships : ndarray) (mlags : mlags_arg) (conf : float) (err_est : bool)
    : result ChapmanKolmogorovValidator :=
  match __init__ test_model test_estimator memberships mlags conf err_est blank with
  | (Ok _, s) => Ok s
  | (Raise e, _) => Raise e
  end.

(** ** [cktest] *)

(** The [try] block: PCCA memberships unless memberships are given, and
    the identity matrix when PCCA raises NotImplementedError. *)
Definition cktest_memberships (test_model : Model) (nsets : nat)
    (memberships : option ndarray) : result ndarray :=
  match memberships with
  | Some m => Ok m
  | None =>
      match attr_pcca test_model nsets with
      | Ok m => Ok m
      | Raise NotImplementedError =>
          (do n <- attr_n_states test_model; Ok (Mat (np.eye n)))%res
      | Raise e => Raise e
      end
  end.

Section Driver.

(** [LaggedModelValidator.fit], outside the sources. *)
Variable fit : dtrajs -> method unit.

Definition cktest (test_estimator : Estimator) (test_model : Model)
    (data : dtrajs) (nsets : nat) (memberships : option ndarray)
    (mlags : mlags_arg) (conf : float) (err_est : bool)
    : result ChapmanKolmogorovValidator :=
  (do memberships <- cktest_memberships test_model nsets memberships;
   do ck <- new test_model test_estimator memberships mlags conf err_est;
   match fit data ck with
   | (Ok _, ck') => Ok ck'
   | (Raise e, _) => Raise e
   end)%res.

End Driver.

(** * Vocabulary of the statements *)

(** The value is an array of two dimensions. *)
Definition two_dimensional (value : ndarray) : bool :=
  match value with
  | Mat rows => np.rectangular rows
  | _ => false
  end.

(** Every row sums to one within the tolerance of [np.allclose]. *)
Definition row_stochastic (rows : matrix) : bool :=
  forallb (fun r => isclose (np.sum r) fone) rows.

(** The active set the setter works with: [np.arange(n_states)] when the
    count model declares none. *)
Definition effective_active_set (m : MarkovStateModel) (cm : TransitionCountModel)
    : list nat :=
  match active_set cm with
  | None => np.arange (n_states m)
  | Some a => a
  end.


(** The method returns the object as it received it, whatever the outcome. *)
Definition preserves {A} (c : method A) : Prop :=
  forall s, (c s).2 = s.

(** Every value the method can return satisfies [Q]. *)
Definition returns {A} (c : method A) (Q : A -> Prop) : Prop :=
  forall s a s', c s = (Ok a, s') -> Q a.

(** The exact sum of the finite entries. *)
Definition qsum (v : list float) : Q :=
  foldr (fun x acc => (fval x + acc)%Q) 0%Q v.

(** [|x - y| <= tol], for finite values only. *)
Definition within (tol : Q) (x y : float) : Prop :=
  match x, y with
  | Fin a, Fin b => (Qabs (a - b) <= tol)%Q
  | _, _ => False
  end.


(** A finite value that is not negative. *)
Definition nonneg (x : float) : Prop :=
  match x with
  | Fin a => (0 <= a)%Q
  | _ => False
  end.

(** The sum of a list of rationals. *)
Definition Qsum (qs : list Q) : Q := foldr Qplus 0%Q qs.

(** The method keeps the property [I] of the object, whatever the outcome. *)
Definition keeps {A} (I : ChapmanKolmogorovValidator -> Prop) (c : method A) : Prop :=
  forall s, I s -> I (c s).2.

(** Column 0 of the stored [P0] is [c0], and [P0] has [rows] rows. *)
Definition first_column_is (c0 : list float) (rows : nat)
    (s : ChapmanKolmogorovValidator) : Prop :=
  exists P, self_P0 s = Some P /\ length P = rows /\ np.col 0 P = c0.


(** * Concrete models and validators *)

(** [propagate] returning its input unchanged. *)
Definition identity_dynamics (p : ndarray) (k : Z) : result ndarray := Ok p.

(** A two-state model with identity dynamics, stationary distribution
    [(p0, p1)] and active set [{a0, a1}]. *)
Definition two_state_model (p0 p1 : Q) (a0 a1 : nat)
    (pc : nat -> result ndarray) : MarkovStateModel :=
  {| n_states := 2;
     stationary_distribution := [Fin p0; Fin p1];
     count_model := Some {| active_set := Some [a0; a1] |};
     propagate := identity_dynamics;
     pcca := pc |}.

(** A model type without PCCA. *)
Definition no_pcca (nsets : nat) : result ndarray := Raise NotImplementedError.

(** Two states, identity dynamics, uniform stationary distribution, both
    states active. *)
Definition reference_model : MarkovStateModel :=
  two_state_model (1 # 2) (1 # 2) 0 1 no_pcca.

Definition example_estimator : Estimator :=
  {| fit_at := fun _ _ => Ok (Point reference_model) |}.

Definition hard_partition : matrix := [[Fin 1; Fin 0]; [Fin 0; Fin 1]].

(** [ChapmanKolmogorovValidator(reference_model, estimator, hard_partition,
    conf=0.95)]. *)
Definition example_validator : ChapmanKolmogorovValidator :=
  mkCK (Some hard_partition) (Some 2) (Some 2) (Some false)
       (Some reference_model) (Some hard_partition) (Some [0; 1])
       (Some example_estimator) (Some (Fin (95 # 100))) (Some MlagsNone).

(** A model of the same two states that reports no count model. *)
Definition unrestricted_model : MarkovStateModel :=
  {| n_states := 2;
     stationary_distribution := [Fin (1 # 2); Fin (1 # 2)];
     count_model := None;
     propagate := identity_dynamics;
     pcca := no_pcca |}.

(** A model of the same two states whose count model declares no active
    set. *)
Definition undeclared_model : MarkovStateModel :=
  {| n_states := 2;
     stationary_distribution := [Fin (1 # 2); Fin (1 # 2)];
     count_model := Some {| active_set := None |};
     propagate := identity_dynamics;
     pcca := no_pcca |}.

(** A model estimated on state 0 alone. *)
Definition one_state_model : MarkovStateModel :=
  {| n_states := 1;
     stationary_distribution := [Fin 1];
     count_model := Some {| active_set := Some [0] |};
     propagate := identity_dynamics;
     pcca := no_pcca |}.

(** A reference model whose active set [{0, 2}] leaves out state 1. *)
Definition gapped_model : MarkovStateModel :=
  two_state_model (1 # 2) (1 # 2) 0 2 no_pcca.

(** The example validator rebound to the gapped model. *)
Definition gapped_validator : ChapmanKolmogorovValidator :=
  mkCK (Some hard_partition) (Some 2) (Some 2) (Some false)
       (Some gapped_model) (Some hard_partition) (Some [0; 0; 1])
       (Some example_estimator) (Some (Fin (95 # 100))) (Some MlagsNone).

(** A posterior around the reference model with two samples. *)
Definition example_posterior : Model :=
  BayesianPosterior reference_model [reference_model; reference_model].

(** An interval routine that reports the level it was called with. *)
Definition level_probe (samples : list float) (level : float) : float * float :=
  (level, level).


(** A two-state model whose count model declares an empty active set. *)
Definition empty_active_model : MarkovStateModel :=
  {| n_states := 2;
     stationary_distribution := [Fin (1 # 2); Fin (1 # 2)];
     count_model := Some {| active_set := Some [] |};
     propagate := identity_dynamics;
     pcca := no_pcca |}.

(** A two-state model whose count model lists three active states. *)
Definition long_active_model : MarkovStateModel :=
  {| n_states := 2;
     stationary_distribution := [Fin (1 # 2); Fin (1 # 2)];
     count_model := Some {| active_set := Some [0; 1; 2] |};
     propagate := identity_dynamics;
     pcca := no_pcca |}.

(** A model whose PCCA fails with an error of its own. *)
Definition broken_pcca_model : MarkovStateModel :=
  {| n_states := 2;
     stationary_distribution := [Fin (1 # 2); Fin (1 # 2)];
     count_model := Some {| active_set := Some [0; 1] |};
     propagate := identity_dynamics;
     pcca := fun _ => Raise ValueError |}.

(** A posterior without samples around a prior without count model. *)
Definition unrestricted_posterior : Model :=
  BayesianPosterior unrestricted_model [].

(** A [fit] that does nothing. *)
Definition idle_fit (data : dtrajs) : method unit := unit_m tt.

(** A two-state model with identity dynamics whose stationary distribution
    puts all mass on state 0. *)
Definition lopsided_model : MarkovStateModel :=
  two_state_model 1 0 0 1 no_pcca.

(** Memberships whose second row sums to 1.000005. *)
Definition loose_memberships : matrix :=
  [[Fin 1; Fin 0]; [Fin (500005 # 1000000); Fin (1 # 2)]].

(** * Properties *)

(** ** Arithmetic on finite values *)

Lemma fin_eq (a b : Q) : (a == b)%Q -> fin a = fin b.
Proof. intros H. unfold fin. f_equal. by apply Qred_complete. Qed.

Lemma fadd_fin (a b : Q) : fadd (fin a) (fin b) = fin (a + b).
Proof. unfold fin at 1 2. simpl. apply fin_eq. by rewrite !Qred_correct. Qed.

Lemma fmul_fin (a b : Q) : fmul (fin a) (fin b) = fin (a * b).
Proof. unfold fin at 1 2. simpl. apply fin_eq. by rewrite !Qred_correct. Qed.

Lemma Qcompare_zero (b : Q) : (b ?= 0)%Q = Eq <-> (b == 0)%Q.
Proof. symmetry. apply Qeq_alt. Qed.

Lemma fdiv_Fin (a b : Q) : ~ (b == 0)%Q -> fdiv (Fin a) (Fin b) = fin (a / b).
Proof.
  intros Hb. simpl. destruct (b ?= 0)%Q eqn:E; try reflexivity.
  by apply Qcompare_zero in E.
Qed.

Lemma fdiv_fin (a b : Q) : ~ (b == 0)%Q -> fdiv (fin a) (fin b) = fin (a / b).
Proof.
  intros Hb. unfold fin at 1 2. rewrite fdiv_Fin.
  - apply fin_eq. by rewrite !Qred_correct.
  - by rewrite Qred_correct.
Qed.

Lemma fdiv_zero_zero (a s : Q) : (a == 0)%Q -> (s == 0)%Q -> fdiv (Fin a) (Fin s) = NaN.
Proof.
  intros Ha Hs. simpl.
  apply Qcompare_zero in Ha, Hs. by rewrite Ha, Hs.
Qed.

(** A sum is finite only if every summand is. *)
Lemma fadd_Fin_inv (x y : float) (q : Q) :
  fadd x y = Fin q -> exists a b, x = Fin a /\ y = Fin b /\ (q == a + b)%Q.
Proof.
  destruct x as [a| | |], y as [b| | |]; simpl; try discriminate.
  intros [= <-]. exists a, b. repeat split; try reflexivity. apply Qred_correct.
Qed.

Lemma sum_Fin_inv (v : list float) (q : Q) :
  np.sum v = Fin q -> Forall is_fin v.
Proof.
  revert q. induction v as [|x v IH]; intros q H; [constructor|].
  apply fadd_Fin_inv in H as (a & b & -> & Hb & _).
  constructor; [exact I | by eapply IH].
Qed.

(** ** The membership check *)

Lemma allclose_row_sums (rows : matrix) :
  np.allclose (np.sum_axis1 rows) (np.ones (length rows)) = row_stochastic rows.
Proof.
  unfold np.allclose, np.sum_axis1, np.ones, row_stochastic.
  induction rows as [|r rows IH]; simpl; [reflexivity|]. by rewrite IH.
Qed.

Lemma memberships_setter_run (value : ndarray) (s : ChapmanKolmogorovValidator) :
  memberships_setter value s =
  match ensure_ndarray value with
  | Raise e => (Raise e, s)
  | Ok rows =>
      (if row_stochastic rows then Ok tt else Raise AssertionError,
       set_shape_attrs (length rows) (np.ncols rows) (set_memberships_attr rows s))
  end.
Proof.
  unfold memberships_setter, bind_m, lift, attr, assign, py_assert.
  destruct (ensure_ndarray value) as [rows|e]; simpl; [|reflexivity].
  by rewrite allclose_row_sums.
Qed.

(** Destructs the scrutinee of the innermost [match] of the goal. *)
Ltac destruct_match :=
  match goal with
  | |- context [match ?x with _ => _ end] =>
      lazymatch x with
      | context [match _ with _ => _ end] => fail
      | _ => destruct x eqn:?
      end
  end.

Ltac step_method :=
  unfold bind_m, lift, attr, assign, py_assert, unit_m, from_option in *; simpl in *.

(** The [test_model] setter never assigns the membership attributes. *)
Lemma test_model_setter_keeps (model : Model) (s : ChapmanKolmogorovValidator) :
  let s' := (test_model_setter model s).2 in
  self_memberships s' = self_memberships s /\
  self_n_states s' = self_n_states s /\
  self_nsets s' = self_nsets s.
Proof.
  unfold test_model_setter. step_method.
  repeat (destruct_match; simpl; try done).
Qed.

(** Construction, step by step. *)
Lemma new_run (test_model : Model) (test_estimator : Estimator) (value : ndarray)
    (mlags : mlags_arg) (conf : float) (err_est : bool) :
  new test_model test_estimator value mlags conf err_est =
  match ensure_ndarray value with
  | Raise e => Raise e
  | Ok rows =>
      if row_stochastic rows then
        match test_model_setter test_model
                (set_err_est_attr err_est
                   (set_shape_attrs (length rows) (np.ncols rows)
                      (set_memberships_attr rows blank))) with
        | (Ok _, s) => Ok (set_base_attrs test_estimator conf mlags s)
        | (Raise e, _) => Raise e
        end
      else Raise AssertionError
  end.
Proof.
  unfold new, __init__, base_init, bind_m. rewrite memberships_setter_run.
  destruct (ensure_ndarray value) as [rows|e]; [|reflexivity].
  destruct (row_stochastic rows); [|reflexivity].
  unfold assign at 1. cbv beta iota.
  destruct (test_model_setter _ _) as [[[]|e] s2]; reflexivity.
Qed.

Lemma isclose_far (q : Q) :
  (2 # 100000 < Qabs (q - 1))%Q -> isclose (Fin q) fone = false.
Proof.
  intros Hfar. simpl. destruct (Qle_bool _ _) eqn:E; [|reflexivity].
  apply Qle_bool_iff in E. exfalso. eapply Qlt_not_le; [exact Hfar|].
  eapply Qle_trans; [exact E|]. apply Qle_bool_iff. reflexivity.
Qed.

Lemma isclose_near (q : Q) :
  (Qabs (q - 1) <= 1 # 100000)%Q -> isclose (Fin q) fone = true.
Proof.
  intros Hnear. simpl. apply Qle_bool_iff.
  eapply Qle_trans; [exact Hnear|]. apply Qle_bool_iff. reflexivity.
Qed.

(** C7 (amended).  Constructing the validator with memberships that are not
    a two-dimensional array raises ValueError (the array check).  With a
    two-dimensional matrix that has a row of at most a million entries, none
    negative, whose sum differs from one by more than 2e-5 it raises
    AssertionError (the [np.allclose] assertion, run with its default
    tolerances [rtol = 1e-5], [atol = 1e-8]); when the matrix has at most a
    million columns and every row has non-negative entries and a sum within
    1e-5 of one, the assertion passes.  Whenever construction succeeds,
    [n_states] is the number of rows of the memberships and [nsets] their
    number of columns.  (Sums in this development do not round; the sign
    and size conditions, which the proof does not need, and the gap between
    the two thresholds keep both verdicts the same for float sums, which
    are then without cancellation and off by far less than the gap.) *)
Theorem invalid_memberships_rejected
    (test_model : Model) (test_estimator : Estimator) (value : ndarray)
    (mlags : mlags_arg) (conf : float) (err_est : bool) :
  (two_dimensional value = false ->
     new test_model test_estimator value mlags conf err_est = Raise ValueError) /\
  (forall rows row q, value = Mat rows -> np.rectangular rows = true ->
     row ∈ rows -> (Z.of_nat (length row) <= 1000000)%Z ->
     Forall nonneg row -> np.sum row = Fin q ->
     (2 # 100000 < Qabs (q - 1))%Q ->
     new test_model test_estimator value mlags conf err_est = Raise AssertionError) /\
  (forall rows, value = Mat rows -> np.rectangular rows = true ->
     (Z.of_nat (np.ncols rows) <= 1000000)%Z ->
     Forall (fun row => Forall nonneg row /\
               exists q, np.sum row = Fin q /\ (Qabs (q - 1) <= 1 # 100000)%Q) rows ->
     forall s, (memberships_setter value s).1 = Ok tt) /\
  (forall ck, new test_model test_estimator value mlags conf err_est = Ok ck ->
     exists rows, value = Mat rows /\ np.rectangular rows = true /\
       self_memberships ck = Some rows /\
       self_n_states ck = Some (length rows) /\
       self_nsets ck = Some (np.ncols rows)).
Proof.
  rewrite new_run. split; [|split; [|split]].
  - intros H2. destruct value as [x|v|rows]; try reflexivity.
    unfold two_dimensional in H2. unfold ensure_ndarray. by rewrite H2.
  - intros rows row q -> Hrect Hrow _ _ Hsum Hfar. unfold ensure_ndarray.
    rewrite Hrect.
    assert (Hrs : row_stochastic rows = false).
    { destruct (row_stochastic rows) eqn:E; [|reflexivity].
      unfold row_stochastic in E. rewrite forallb_forall in E.
      apply list_elem_of_In in Hrow. specialize (E row Hrow).
      rewrite Hsum, (isclose_far q Hfar) in E. discriminate E. }
    by rewrite Hrs.
  - intros rows -> Hrect _ Hrows s. rewrite memberships_setter_run.
    unfold ensure_ndarray. rewrite Hrect.
    assert (Hrs : row_stochastic rows = true).
    { unfold row_stochastic. apply forallb_forall. intros row Hrow%list_elem_of_In.
      eapply Forall_forall in Hrows as (_ & q & -> & Hq); [|exact Hrow].
      by apply isclose_near. }
    by rewrite Hrs.
  - intros ck. destruct value as [x|v|rows]; try discriminate.
    unfold ensure_ndarray.
    destruct (np.rectangular rows) eqn:Hrect; [|discriminate].
    destruct (row_stochastic rows) eqn:Hrow; [|discriminate].
    set (s1 := set_err_est_attr _ _).
    pose proof (test_model_setter_keeps test_model s1) as (Hm & Hn & Hk).
    destruct (test_model_setter test_model s1) as [[[]|e] s2];
      simpl in *; [|discriminate].
    intros [= <-]. exists rows. simpl. by rewrite Hm, Hn, Hk.
Qed.

(** ** The identity memberships *)

Lemma sum_indicator (i a k : nat) :
  np.sum (map (fun j => if Nat.eqb i j then fone else fzero) (seq a k)) =
  if (a <=? i) && (i <? a + k) then fone else fzero.
Proof.
  revert a. induction k as [|k IH]; intros a.
  - replace (i <? a + 0) with (i <? a) by (f_equal; lia).
    destruct (Nat.leb_spec a i), (Nat.ltb_spec i a); simpl; try reflexivity; lia.
  - change (np.sum (map ?f (seq a (S k)))) with
      (fadd (f a) (np.sum (map f (seq (S a) k)))).
    rewrite IH. clear IH.
    destruct (Nat.eqb_spec i a) as [->|Hne].
    + rewrite (proj2 (Nat.leb_gt (S a) a)) by lia.
      rewrite Nat.leb_refl, (proj2 (Nat.ltb_lt a (a + S k))) by lia.
      reflexivity.
    + destruct (Nat.leb_spec (S a) i), (Nat.leb_spec a i),
        (Nat.ltb_spec i (S a + k)), (Nat.ltb_spec i (a + S k));
        simpl; try reflexivity; lia.
Qed.

Lemma eye_rows (n : nat) (r : list float) :
  In r (np.eye n) -> length r = n /\ np.sum r = fone.
Proof.
  unfold np.eye. intros (i & <- & Hi)%in_map_iff. apply in_seq in Hi.
  split.
  - by rewrite length_map, length_seq.
  - rewrite sum_indicator.
    destruct (Nat.leb_spec 0 i), (Nat.ltb_spec i (0 + n)); simpl; try reflexivity; lia.
Qed.

Lemma eye_rectangular (n : nat) : np.rectangular (np.eye n) = true.
Proof.
  unfold np.rectangular. apply forallb_forall. intros r Hr.
  apply Nat.eqb_eq. destruct (eye_rows n r Hr) as [-> _].
  destruct n as [|n]; [destruct Hr|].
  unfold np.eye. simpl. by rewrite length_map, length_seq.
Qed.

Lemma eye_row_stochastic (n : nat) : row_stochastic (np.eye n) = true.
Proof.
  unfold row_stochastic. apply forallb_forall. intros r Hr.
  destruct (eye_rows n r Hr) as [_ ->]. reflexivity.
Qed.

Lemma eye_shape (n : nat) : length (np.eye n) = n /\ np.ncols (np.eye n) = n.
Proof.
  unfold np.eye. split; [by rewrite length_map, length_seq|].
  destruct n as [|n]; [reflexivity|]. simpl. by rewrite length_map, length_seq.
Qed.

(** C9.  When no memberships are given and PCCA raises
    NotImplementedError, [cktest] continues exactly as if it had been given
    the identity matrix of size [n_states], and the membership check
    accepts that matrix.  The validator is constructed from the identity
    matrix: once the model is bound, [fit] receives a validator whose
    memberships are the identity and whose [nsets] is [n_states], and
    [cktest] returns what [fit] leaves (or the exception [fit] raises);
    the NotImplementedError of PCCA is not passed on. *)
Theorem pcca_fallback_identity
    (fit : dtrajs -> method unit) (test_estimator : Estimator)
    (m : MarkovStateModel) (data : dtrajs) (nsets : nat)
    (mlags : mlags_arg) (conf : float) (err_est : bool)
    (s : ChapmanKolmogorovValidator) :
  pcca m nsets = Raise NotImplementedError ->
  cktest_memberships (Point m) nsets None = Ok (Mat (np.eye (n_states m))) /\
  cktest fit test_estimator (Point m) data nsets None mlags conf err_est =
  cktest fit test_estimator (Point m) data nsets
         (Some (Mat (np.eye (n_states m)))) mlags conf err_est /\
  (memberships_setter (Mat (np.eye (n_states m))) s).1 = Ok tt /\
  forall s2 r ck',
    test_model_setter (Point m)
      (set_err_est_attr err_est
         (set_shape_attrs (n_states m) (n_states m)
            (set_memberships_attr (np.eye (n_states m)) blank))) = (Ok tt, s2) ->
    fit data (set_base_attrs test_estimator conf mlags s2) = (r, ck') ->
    new (Point m) test_estimator (Mat (np.eye (n_states m))) mlags conf err_est
      = Ok (set_base_attrs test_estimator conf mlags s2) /\
    self_memberships (set_base_attrs test_estimator conf mlags s2)
      = Some (np.eye (n_states m)) /\
    self_nsets (set_base_attrs test_estimator conf mlags s2) = Some (n_states m) /\
    cktest fit test_estimator (Point m) data nsets None mlags conf err_est
      = match r with
        | Ok _ => Ok ck'
        | Raise e => Raise e
        end.
Proof.
  intros Hpcca.
  assert (Hm : cktest_memberships (Point m) nsets None
               = Ok (Mat (np.eye (n_states m)))).
  { unfold cktest_memberships, attr_pcca. by rewrite Hpcca. }
  split; [exact Hm|]. split; [|split].
  - unfold cktest. by rewrite Hm.
  - rewrite memberships_setter_run. unfold ensure_ndarray.
    by rewrite eye_rectangular, eye_row_stochastic.
  - intros s2 r ck' Hbind Hfit.
    assert (Hnew : new (Point m) test_estimator (Mat (np.eye (n_states m)))
                     mlags conf err_est
                   = Ok (set_base_attrs test_estimator conf mlags s2)).
    { rewrite new_run. unfold ensure_ndarray.
      rewrite eye_rectangular, eye_row_stochastic.
      destruct (eye_shape (n_states m)) as [-> ->]. by rewrite Hbind. }
    pose proof (test_model_setter_keeps (Point m)
                  (set_err_est_attr err_est
                     (set_shape_attrs (n_states m) (n_states m)
                        (set_memberships_attr (np.eye (n_states m)) blank))))
      as (HM & _ & Hk).
    rewrite Hbind in HM, Hk. cbn [snd] in HM, Hk.
    split; [exact Hnew|]. split; [|split].
    + cbn [self_memberships set_base_attrs]. by rewrite HM.
    + cbn [self_nsets set_base_attrs]. by rewrite Hk.
    + unfold cktest. rewrite Hm. cbn [rbind]. rewrite Hnew. cbn [rbind].
      rewrite Hfit. by destruct r as [[]|e].
Qed.

(** ** Binding a reference model *)

(** What a successful run of the [test_model] setter has computed. *)
Lemma test_model_setter_ok (model : Model) (s s' : ChapmanKolmogorovValidator) :
  test_model_setter model s = (Ok tt, s') ->
  let m := unwrap_prior model in
  exists M P cm t,
    self_memberships s = Some M /\
    Nat.eqb (length M) (n_states m) = true /\
    mul_column M (stationary_distribution m) = Ok P /\
    count_model m = Some cm /\
    effective_active_set m cm <> [] /\
    assign_at (replicate (max_list (effective_active_set m cm) + 1) 0)
              (effective_active_set m cm) (np.arange (n_states m)) = Ok t /\
    s' = set_full2active_attr t
           (set_P0_attr (div_rows P (np.sum_axis0 P)) (set_test_model_attr m s)).
Proof.
  unfold test_model_setter, effective_active_set, np_max. step_method.
  intros H.
  destruct (self_memberships s) as [M|] eqn:HM; simpl in H; [|discriminate].
  destruct (length M =? n_states (unwrap_prior model)) eqn:Hn;
    simpl in H; [|discriminate].
  destruct (mul_column M _) as [P|] eqn:HP; simpl in H; [|discriminate].
  destruct (count_model _) as [cm|] eqn:Hcm; simpl in H; [|discriminate].
  remember (match active_set cm with Some a => a | None => _ end) as A eqn:EA.
  destruct A as [|a A']; simpl in H; [discriminate|].
  destruct (assign_at _ _ _) as [t|] eqn:Ht; simpl in H; [|discriminate].
  injection H as <-.
  exists M, P, cm, t. rewrite <- EA. repeat split; done.
Qed.

Lemma scatter_lookup_notin (t idx vals : list nat) (f : nat) :
  f ∉ idx -> scatter t idx vals !! f = t !! f.
Proof.
  revert t vals. induction idx as [|g idx IH]; intros t vals Hf; [done|].
  apply not_elem_of_cons in Hf as [Hne Hf].
  destruct vals as [|a vals]; [done|]. simpl.
  rewrite IH by done. by apply list_lookup_insert_ne.
Qed.

Lemma length_scatter (t idx vals : list nat) :
  length (scatter t idx vals) = length t.
Proof.
  revert t vals. induction idx as [|g idx IH]; intros t vals; [done|].
  destruct vals as [|a vals]; [done|]. simpl. by rewrite IH, length_insert.
Qed.

Lemma assign_at_ok (t idx vals t' : list nat) :
  assign_at t idx vals = Ok t' -> exists vals', t' = scatter t idx vals'.
Proof.
  unfold assign_at.
  destruct (forallb _ idx); [|discriminate].
  destruct (length vals =? length idx); [intros [= <-]; eauto|].
  destruct vals as [|a [|b vals]]; try discriminate. intros [= <-]; eauto.
Qed.

(** Advanced indexing within bounds reads the indexed entries. *)
Lemma gather_in_range {A} (t : list A) (B : list nat) :
  Forall (fun f => f < length t) B ->
  exists l, gather t B = Ok l /\ length l = length B /\
    forall k f, B !! k = Some f -> l !! k = t !! f.
Proof.
  unfold gather. induction 1 as [|f B Hf _ (l & Hl & Hlen & Hlk)]; simpl.
  - exists []. by repeat split.
  - destruct (lookup_lt_is_Some_2 t f Hf) as [x Hx]. rewrite Hx, Hl. simpl.
    exists (x :: l). repeat split; [by rewrite <- Hlen|].
    intros [|k] g; simpl; [by intros [= <-]|apply Hlk].
Qed.

(** C10.  After a reference model with active set [A] has been bound, the
    remap table has [max A + 1] entries and holds 0 at every full-space
    index up to [max A] that is not in [A].  A prediction for a model whose
    active set [B] stays within the table therefore raises no error while
    remapping: every entry of [B] outside [A] is mapped to the active index
    0. *)
Theorem remap_table_gaps_are_zero
    (model : Model) (s s' : ChapmanKolmogorovValidator)
    (cm : TransitionCountModel) (A : list nat) :
  test_model_setter model s = (Ok tt, s') ->
  count_model (unwrap_prior model) = Some cm ->
  active_set cm = Some A ->
  exists t,
    self_full2active s' = Some t /\
    length t = max_list A + 1 /\
    (forall f, f <= max_list A -> f ∉ A -> t !! f = Some 0) /\
    (forall (m' : MarkovStateModel) (cm' : TransitionCountModel) (B : list nat),
       count_model m' = Some cm' -> active_set cm' = Some B ->
       Forall (fun f => f <= max_list A) B ->
       exists l, find_subset m' s' = (Ok (IVec l), s') /\
         length l = length B /\
         forall k f, B !! k = Some f -> f ∉ A -> l !! k = Some 0).
Proof.
  intros Hset Hcm HA.
  apply test_model_setter_ok in Hset as (M & P & cm0 & t & _ & _ & _ & Hcm0 & _ & Ht & ->).
  rewrite Hcm in Hcm0. injection Hcm0 as <-.
  unfold effective_active_set in Ht. rewrite HA in Ht.
  apply assign_at_ok in Ht as [vals ->].
  set (t := scatter _ A vals).
  assert (Hlen : length t = max_list A + 1).
  { unfold t. by rewrite length_scatter, length_replicate. }
  assert (Hzero : forall f, f <= max_list A -> f ∉ A -> t !! f = Some 0).
  { intros f Hle Hf. unfold t. rewrite scatter_lookup_notin by done.
    apply lookup_replicate_2. lia. }
  exists t. repeat split; try done.
  intros m' cm' B Hcm' HB Hin.
  destruct (gather_in_range t B) as (l & Hl & HlB & Hlk).
  { eapply Forall_impl; [exact Hin|]. simpl. intros f Hf. lia. }
  exists l. repeat split; try done.
  - unfold find_subset. rewrite Hcm'. step_method. rewrite HB.
    fold (gather t B). by rewrite Hl.
  - intros k f Hk Hf. rewrite (Hlk k f Hk). apply Hzero; [|done].
    eapply Forall_lookup_1 in Hin; [|exact Hk]. done.
Qed.


(** ** Methods that leave the object as it was *)

Lemma preserves_unit {A} (a : A) : preserves (unit_m a).
Proof. by intros s. Qed.

Lemma preserves_lift {A} (r : result A) : preserves (lift r).
Proof. by intros s. Qed.

Lemma preserves_attr {A} (field : ChapmanKolmogorovValidator -> option A) :
  preserves (attr field).
Proof. by intros s. Qed.

Lemma preserves_bind_post {A B} (c : method A) (k : A -> method B) (Q : A -> Prop) :
  preserves c -> returns c Q -> (forall a, Q a -> preserves (k a)) ->
  preserves (bind_m c k).
Proof.
  intros Hc HQ Hk s. unfold bind_m.
  specialize (Hc s). destruct (c s) as [[a|e] s1] eqn:E; simpl in Hc; subst s1.
  - apply Hk. by eapply HQ.
  - reflexivity.
Qed.

Lemma preserves_bind {A B} (c : method A) (k : A -> method B) :
  preserves c -> (forall a, preserves (k a)) -> preserves (bind_m c k).
Proof.
  intros Hc Hk. apply preserves_bind_post with (Q := fun _ => True); try done.
Qed.

Lemma preserves_for_each {A B} (body : A -> method B) (xs : list A) :
  (forall x, preserves (body x)) -> preserves (for_each body xs).
Proof.
  intros Hbody. induction xs as [|x xs IH]; simpl.
  - apply preserves_unit.
  - apply preserves_bind; [apply Hbody|]. intros y.
    apply preserves_bind; [apply IH|]. intros ys. apply preserves_unit.
Qed.

Create HintDb preserves.
#[local] Hint Resolve preserves_unit preserves_lift preserves_attr : preserves.
#[local] Hint Extern 2 (preserves (bind_m _ _)) =>
  apply preserves_bind; [|intros ?] : preserves.
#[local] Hint Extern 2 (preserves (for_each _ _)) =>
  apply preserves_for_each; intros ? : preserves.
#[local] Hint Extern 3 (preserves (match ?x with _ => _ end)) =>
  destruct x : preserves.

Lemma preserves_P0_column (i : nat) : preserves (P0_column i).
Proof. unfold P0_column. auto with preserves. Qed.
#[local] Hint Resolve preserves_P0_column : preserves.

Lemma preserves_contents (b : buffer) : preserves (contents b).
Proof. unfold contents. auto with preserves. Qed.
#[local] Hint Resolve preserves_contents : preserves.

Lemma preserves_index_column (i : nat) (subset : index) :
  preserves (index_column i subset).
Proof. unfold index_column. auto 7 with preserves. Qed.

Lemma preserves_memberships_at (subset : index) (j : nat) :
  preserves (memberships_at subset j).
Proof. unfold memberships_at. auto 7 with preserves. Qed.
#[local] Hint Resolve preserves_index_column preserves_memberships_at : preserves.

Lemma preserves_find_subset (m : MarkovStateModel) : preserves (find_subset m).
Proof. unfold find_subset. auto 7 with preserves. Qed.

Lemma preserves_map_onto_sets (subset : index) (pksub : ndarray) (n : nat) :
  preserves (map_onto_sets subset pksub n).
Proof. unfold map_onto_sets. auto 8 with preserves. Qed.
#[local] Hint Resolve preserves_find_subset preserves_map_onto_sets : preserves.

(** In-place division of an array of its own does not reach [self.P0]. *)
Lemma preserves_renormalize_fresh (a : ndarray) : preserves (renormalize (Fresh a)).
Proof. unfold renormalize. simpl. auto with preserves. Qed.

(** Advanced indexing hands out a new array, never a window. *)
Lemma index_column_fresh (i : nat) (subset : index) :
  subset <> INone ->
  returns (index_column i subset) (fun b => exists a, b = Fresh a).
Proof.
  intros Hsub s b s'. unfold index_column. step_method.
  destruct subset as [|l|ll]; [done| |];
    repeat (destruct_match; simpl; try done); intros [= <- _]; eauto.
Qed.

(** C8.  [_compute_observables] leaves the validator object exactly as it
    found it (the only in-place operation, the renormalization, acts on a
    copy made by advanced indexing), so a second call with the same model
    and lag on the object left by the first returns the same result. *)
Theorem compute_observables_repeatable
    (model : Model) (mlag : Z) (s : ChapmanKolmogorovValidator) :
  (_compute_observables model mlag s).2 = s /\
  (_compute_observables model mlag (_compute_observables model mlag s).2).1
    = (_compute_observables model mlag s).1.
Proof.
  assert (H : preserves (_compute_observables model mlag)).
  { unfold _compute_observables.
    apply preserves_bind; [auto with preserves|]. intros nsets.
    apply preserves_bind; [auto with preserves|]. intros subset.
    apply preserves_bind; [auto with preserves|]. intros nsets'.
    apply preserves_for_each. intros i. unfold predicted_row.
    apply preserves_bind_post with (Q := fun b => subset <> INone -> exists a, b = Fresh a).
    - auto with preserves.
    - intros s0 b s1 Hb Hsub. by eapply index_column_fresh.
    - intros b Hb.
      apply preserves_bind.
      + destruct subset as [|l|ll]; [apply preserves_unit| |];
          (destruct Hb as [a ->]; [done|apply preserves_renormalize_fresh]).
      + intros b'. auto 8 with preserves. }
  split; [apply H|]. by rewrite H.
Qed.

(** ** Columns of a rectangular matrix *)

Lemma rectangular_Forall {A} (rows : list (list A)) :
  np.rectangular rows = true <-> Forall (fun r => length r = np.ncols rows) rows.
Proof.
  unfold np.rectangular. rewrite forallb_forall, Forall_forall.
  split; intros H r Hr.
  - apply Nat.eqb_eq, H. by apply list_elem_of_In.
  - apply Nat.eqb_eq, H. by apply list_elem_of_In.
Qed.


Lemma length_sum_axis0 (rows : matrix) :
  length (np.sum_axis0 rows) = np.ncols rows.
Proof. unfold np.sum_axis0. by rewrite length_map, length_seq. Qed.




Lemma rectangular_map (f : list float -> list float) (M : matrix) :
  (forall r, length (f r) = length r) ->
  np.rectangular M = true -> np.rectangular (map f M) = true.
Proof.
  intros Hf HM. apply rectangular_Forall in HM. apply rectangular_Forall.
  replace (np.ncols (map f M)) with (np.ncols M)
    by (destruct M; simpl; by rewrite ?Hf).
  revert HM. generalize (np.ncols M). intros n HM.
  induction HM as [|r M' Hr _ IH]; simpl; [constructor|].
  constructor; [by rewrite Hf|exact IH].
Qed.

Lemma rectangular_zip_with (f : float -> list float -> list float)
    (M : matrix) (pi : list float) :
  (forall p r, length (f p r) = length r) -> length pi = length M ->
  np.rectangular M = true ->
  np.rectangular (zip_with (fun r p => f p r) M pi) = true.
Proof.
  intros Hf Hlen HM. apply rectangular_Forall in HM. apply rectangular_Forall.
  replace (np.ncols (zip_with (fun r p => f p r) M pi)) with (np.ncols M)
    by (destruct M, pi; simpl in *; try done; by rewrite Hf).
  revert HM. generalize (np.ncols M). intros n HM.
  revert pi Hlen. induction HM as [|r M' Hr _ IH]; intros [|p pi] Hlen;
    simpl in *; try done.
  constructor; [by rewrite Hf|]. apply IH. lia.
Qed.

(** [memberships * pi[:, None]] is a rectangular array again. *)
Lemma mul_column_rectangular (M P : matrix) (pi : list float) :
  np.rectangular M = true -> mul_column M pi = Ok P ->
  np.rectangular P = true.
Proof.
  intros HM. unfold mul_column.
  destruct (length pi =? length M) eqn:Hlen.
  - intros [= <-]. apply Nat.eqb_eq in Hlen.
    apply (rectangular_zip_with (fun p r => map (fun x => fmul x p) r));
      [intros; apply length_map|done|done].
  - destruct pi as [|p [|p' pi]].
    + destruct M as [|r [|r' M]]; try discriminate. by intros [= <-].
    + intros [= <-]. apply rectangular_map; [intros; apply length_map|done].
    + destruct M as [|r [|r' M]]; try discriminate. intros [= <-].
      apply rectangular_Forall. simpl. rewrite length_map.
      constructor; [by rewrite length_map|]. constructor; [by rewrite length_map|].
      clear Hlen. induction pi as [|p0 pi IH]; simpl; [constructor|].
      constructor; [by rewrite length_map|exact IH].
Qed.

(** ** Normalizing a column *)

Lemma sum_finite (v : list float) :
  Forall is_fin v -> np.sum v = fin (qsum v).
Proof.
  induction 1 as [|x v Hx _ IH]; [reflexivity|].
  destruct x as [a| | |]; try done.
  change (np.sum (Fin a :: v)) with (fadd (Fin a) (np.sum v)).
  rewrite IH. unfold fin at 1. simpl. apply fin_eq. by rewrite Qred_correct.
Qed.




(** ** A column without mass in the working subset *)

Lemma sum_nonneg (v : list float) (b : Q) :
  Forall nonneg v -> np.sum v = Fin b -> (0 <= b)%Q.
Proof.
  intros Hv. revert b. induction Hv as [|x v Hx _ IH]; intros b.
  - intros [= <-]. apply Qle_refl.
  - change (np.sum (x :: v)) with (fadd x (np.sum v)).
    intros (a & c & -> & Hc & Hb)%fadd_Fin_inv. rewrite Hb.
    specialize (IH c Hc). simpl in Hx.
    replace 0%Q with (0 + 0)%Q by reflexivity. by apply Qplus_le_compat.
Qed.

(** Non-negative entries that sum to zero are all zero, and the division
    by their sum turns each of them into NaN. *)
Lemma zero_mass_normalized (v : list float) (q : Q) :
  Forall nonneg v -> np.sum v = Fin q -> (q == 0)%Q ->
  map (fun x => fdiv x (Fin q)) v = replicate (length v) NaN.
Proof.
  intros Hv. revert q. induction Hv as [|x v Hx Hv IH]; intros q; [done|].
  change (np.sum (x :: v)) with (fadd x (np.sum v)).
  intros (a & c & -> & Hc & Hq)%fadd_Fin_inv Hzero. simpl in Hx.
  pose proof (sum_nonneg v c Hv Hc) as Hcpos.
  assert (Ha : (a == 0)%Q).
  { apply Qle_antisym; [|exact Hx]. rewrite <- Hzero, Hq.
    rewrite <- (Qplus_0_r a) at 1. by apply Qplus_le_compat; [apply Qle_refl|]. }
  assert (Hc0 : (c == 0)%Q).
  { rewrite Hq, Ha, Qplus_0_l in Hzero. exact Hzero. }
  change (map ?f (Fin a :: v)) with (f (Fin a) :: map f v).
  change (replicate (length (Fin a :: v)) NaN)
    with (NaN :: replicate (length v) NaN).
  f_equal; [by apply fdiv_zero_zero|].
  rewrite <- (IH c Hc Hc0). apply map_ext.
  apply Qcompare_zero in Hzero, Hc0.
  intros [b| | |]; simpl; by rewrite ?Hzero, ?Hc0.
Qed.

Lemma length_gather {A} (a : list A) (l : list nat) (v : list A) :
  gather a l = Ok v -> length v = length l.
Proof.
  unfold gather. revert v. induction l as [|k l IH]; intros v; simpl.
  - by intros [= <-].
  - destruct (a !! k); simpl; [|discriminate].
    destruct (rmap _ l) as [v'|]; simpl; [|discriminate].
    intros [= <-]. simpl. f_equal. by apply IH.
Qed.

(** C3 (amended).  When the entries of a set's [P0] column selected by the
    model's active subset are non-negative and have zero total mass, the
    renormalization divides them by zero without any check: every entry
    becomes NaN, no exception is raised by the division, and the row of the
    result is computed from what [propagate] returns for that all-NaN
    vector. *)
Theorem zero_mass_renormalized_to_nan
    (model : MarkovStateModel) (mlag : Z) (s : ChapmanKolmogorovValidator)
    (P : matrix) (i : nat) (p0 : list float) (l : list nat)
    (v : list float) (q : Q) :
  self_P0 s = Some P ->
  np.column i P = Some p0 ->
  gather p0 l = Ok v ->
  Forall nonneg v -> np.sum v = Fin q -> (q == 0)%Q ->
  (do b <- index_column i (IVec l); do b' <- renormalize b; contents b')%method s
    = (Ok (Vec (replicate (length l) NaN)), s) /\
  predicted_row model mlag (IVec l) i s =
  (do pksub <- lift (propagate model (Vec (replicate (length l) NaN)) mlag);
   do nsets <- attr self_nsets;
   map_onto_sets (IVec l) pksub nsets)%method s.
Proof.
  intros HP Hcol Hgather Hnonneg Hsum Hzero.
  pose proof (zero_mass_normalized v q Hnonneg Hsum Hzero) as Hnan.
  rewrite (length_gather _ _ _ Hgather) in Hnan.
  unfold predicted_row, index_column, renormalize, contents, P0_column.
  unfold bind_m, attr, lift, unit_m, from_option.
  rewrite HP, Hcol, Hgather. cbn [np.sum_all np.div_scalar].
  by rewrite Hsum, Hnan.
Qed.

(** ** The hard partition of two states *)

Lemma hard_partition_P0 (p0 p1 : Q) :
  ~ (p0 == 0)%Q -> ~ (p1 == 0)%Q ->
  exists P, mul_column (np.eye 2) [Fin p0; Fin p1] = Ok P /\
    div_rows P (np.sum_axis0 P) = np.eye 2.
Proof.
  intros H0 H1.
  exists [[fin (1 * p0); fin (0 * p0)]; [fin (0 * p1); fin (1 * p1)]].
  split; [reflexivity|].
  change (div_rows ?P (np.sum_axis0 ?P)) with
    [[fdiv (fin (1 * p0)) (fadd (fin (1 * p0)) (fadd (fin (0 * p1)) (fin 0)));
      fdiv (fin (0 * p0)) (fadd (fin (0 * p0)) (fadd (fin (1 * p1)) (fin 0)))];
     [fdiv (fin (0 * p1)) (fadd (fin (1 * p0)) (fadd (fin (0 * p1)) (fin 0)));
      fdiv (fin (1 * p1)) (fadd (fin (0 * p0)) (fadd (fin (1 * p1)) (fin 0)))]].
  rewrite !fadd_fin.
  assert (Hs0 : ~ (1 * p0 + (0 * p1 + 0) == 0)%Q)
    by (intros E; apply H0; rewrite <- E; ring).
  assert (Hs1 : ~ (0 * p0 + (1 * p1 + 0) == 0)%Q)
    by (intros E; apply H1; rewrite <- E; ring).
  rewrite !fdiv_fin by assumption.
  change (np.eye 2) with [[fin 1; fin 0]; [fin 0; fin 1]].
  assert (E : forall a b, (a == b)%Q -> forall l l', l = l' -> fin a :: l = fin b :: l')
    by (intros a b Hab l l' ->; by rewrite (fin_eq a b Hab)).
  f_equal; [|f_equal]; apply E; try apply E; try reflexivity; field; assumption.
Qed.

Lemma hard_partition_table (a0 a1 : nat) :
  a0 <> a1 ->
  exists t,
    assign_at (replicate (max_list [a0; a1] + 1) 0) [a0; a1] (np.arange 2) = Ok t /\
    gather t [a0; a1] = Ok [0; 1].
Proof.
  intros Hne. exists (<[a1 := 1]> (<[a0 := 0]> (replicate (max_list [a0; a1] + 1) 0))).
  assert (Hl0 : a0 < length (replicate (max_list [a0; a1] + 1) 0))
    by (rewrite length_replicate; simpl; lia).
  assert (Hl1 : a1 < length (replicate (max_list [a0; a1] + 1) 0))
    by (rewrite length_replicate; simpl; lia).
  split.
  - unfold assign_at.
    replace (forallb _ [a0; a1]) with true; [reflexivity|].
    symmetry. cbn [forallb].
    by rewrite (proj2 (Nat.ltb_lt _ _) Hl0), (proj2 (Nat.ltb_lt _ _) Hl1).
  - unfold gather. cbn [rmap].
    rewrite list_lookup_insert_ne by done.
    rewrite list_lookup_insert_eq by done.
    rewrite list_lookup_insert_eq by (by rewrite length_insert).
    reflexivity.
Qed.

(** The converse of [test_model_setter_ok]. *)
Lemma test_model_setter_run (model : Model) (s : ChapmanKolmogorovValidator)
    (M P : matrix) (cm : TransitionCountModel) (t : list nat) :
  let m := unwrap_prior model in
  self_memberships s = Some M ->
  Nat.eqb (length M) (n_states m) = true ->
  mul_column M (stationary_distribution m) = Ok P ->
  count_model m = Some cm ->
  effective_active_set m cm <> [] ->
  assign_at (replicate (max_list (effective_active_set m cm) + 1) 0)
            (effective_active_set m cm) (np.arange (n_states m)) = Ok t ->
  test_model_setter model s =
  (Ok tt, set_full2active_attr t
            (set_P0_attr (div_rows P (np.sum_axis0 P)) (set_test_model_attr m s))).
Proof.
  intros m HM Hn HP Hcm Hne Ht.
  unfold test_model_setter, np_max, np.zeros. fold m. fold (effective_active_set m cm).
  unfold py_assert. unfold bind_m, attr, lift, assign, from_option.
  rewrite HM, Hn. cbn [self_memberships set_test_model_attr].
  rewrite HM, HP, Hcm. fold (effective_active_set m cm).
  destruct (effective_active_set m cm) as [|a A] eqn:EA; [done|].
  cbn [self_full2active set_full2active_attr]. by rewrite Ht.
Qed.

Lemma compute_observables_run (model : Model) (mlag : Z)
    (s : ChapmanKolmogorovValidator) (n : nat) (subset : index) :
  self_nsets s = Some n ->
  find_subset (unwrap_prior model) s = (Ok subset, s) ->
  _compute_observables model mlag s =
  for_each (predicted_row (unwrap_prior model) mlag subset) (seq 0 n) s.
Proof.
  intros Hn Hsub. unfold _compute_observables.
  unfold bind_m at 1. unfold attr at 1. rewrite Hn. cbn [from_option].
  unfold bind_m at 1. rewrite Hsub.
  unfold bind_m at 1. unfold attr at 1. by rewrite Hn.
Qed.

(** C1 (amended).  Two states, two sets, memberships [[1,0],[0,1]], and a
    bound model with identity dynamics, its stationary distribution without
    a zero entry, its count model declaring an active set of two distinct
    indices: construction
    succeeds, and for every lag multiple [_compute_observables] returns
    the identity matrix [[1,0],[0,1]]. *)
Theorem hard_partition_identity_dynamics
    (p0 p1 : Q) (a0 a1 : nat) (pc : nat -> result ndarray)
    (test_estimator : Estimator) (mlags : mlags_arg) (conf : float)
    (err_est : bool) :
  ~ (p0 == 0)%Q -> ~ (p1 == 0)%Q -> a0 <> a1 ->
  let model := Point (two_state_model p0 p1 a0 a1 pc) in
  exists ck,
    new model test_estimator (Mat [[Fin 1; Fin 0]; [Fin 0; Fin 1]])
        mlags conf err_est = Ok ck /\
    forall mlag : Z,
      _compute_observables model mlag ck
        = (Ok [[Fin 1; Fin 0]; [Fin 0; Fin 1]], ck).
Proof.
  intros H0 H1 Hne model.
  destruct (hard_partition_P0 p0 p1 H0 H1) as (P & HP & HP0).
  destruct (hard_partition_table a0 a1 Hne) as (t & Ht & Hgather).
  rewrite new_run.
  change (ensure_ndarray _) with (Ok (np.eye 2)).
  change (row_stochastic (np.eye 2)) with true. cbv beta iota.
  set (s1 := set_err_est_attr _ _).
  rewrite (test_model_setter_run model s1 (np.eye 2) P
             {| active_set := Some [a0; a1] |} t); try done.
  rewrite HP0. eexists. split; [reflexivity|]. intros mlag.
  rewrite (compute_observables_run model mlag _ 2 (IVec [0; 1])).
  - clear. vm_compute. reflexivity.
  - reflexivity.
  - unfold find_subset, bind_m, attr, lift, unit_m.
    cbn [unwrap_prior model count_model two_state_model active_set
         self_full2active set_base_attrs set_full2active_attr from_option].
    by rewrite Hgather.
Qed.

(** * The defects at concrete inputs *)

Lemma example_validator_constructed :
  new (Point reference_model) example_estimator (Mat hard_partition)
      MlagsNone (Fin (95 # 100)) false = Ok example_validator.
Proof. vm_compute. reflexivity. Qed.

(** C4.  A model without a count model, evaluated on the example
    validator: [subset] is [None], so [p0[subset]] is the [P0] column under
    a new leading axis (shape (1, 2)) and [self.memberships[subset, j]] is
    row [j] of the memberships under a new axis (shape (1, 2)); [np.dot]
    of the two raises ValueError and no matrix is returned.  A model whose
    count model declares no active set fares the same: the remap table is
    indexed by [None], the subset has two dimensions, and [np.dot] raises
    ValueError. *)
Theorem no_count_model_raises :
  new (Point reference_model) example_estimator (Mat hard_partition)
      MlagsNone (Fin (95 # 100)) false = Ok example_validator /\
  find_subset unrestricted_model example_validator = (Ok INone, example_validator) /\
  (do b <- index_column 0 INone; contents b)%method example_validator
    = (Ok (Mat [[Fin 1; Fin 0]]), example_validator) /\
  memberships_at INone 1 example_validator
    = (Ok (Mat [[Fin 0; Fin 1]]), example_validator) /\
  np.dot (Mat [[Fin 1; Fin 0]]) (Mat [[Fin 0; Fin 1]]) = Raise ValueError /\
  _compute_observables (Point unrestricted_model) 1 example_validator
    = (Raise ValueError, example_validator) /\
  find_subset undeclared_model example_validator
    = (Ok (IMat [[0; 1]]), example_validator) /\
  _compute_observables (Point undeclared_model) 1 example_validator
    = (Raise ValueError, example_validator).
Proof. repeat split; vm_compute; reflexivity. Qed.

(** C5.  The [conf] argument of [_compute_observables_conf] never reaches
    the interval routine: the result is the same for any two levels
    passed, and on the example validator (built with [conf=0.95]) a call
    with level 0.5 hands 0.95 to the routine for every cell. *)
Theorem passed_confidence_level_ignored :
  (forall confidence_interval model mlag conf1 conf2 s,
     _compute_observables_conf confidence_interval model mlag conf1 s =
     _compute_observables_conf confidence_interval model mlag conf2 s) /\
  _compute_observables_conf level_probe example_posterior 1 (Fin (1 # 2))
      example_validator
    = (Ok ([[Fin (95 # 100); Fin (95 # 100)]; [Fin (95 # 100); Fin (95 # 100)]],
           [[Fin (95 # 100); Fin (95 # 100)]; [Fin (95 # 100); Fin (95 # 100)]]),
       example_validator).
Proof. split; [reflexivity|]. vm_compute. reflexivity. Qed.


(** C1, as stated, fails: with the stationary distribution (1, 0) the
    second column of [P0] is 0/0, and the prediction for the hard partition
    under identity dynamics has a NaN row instead of the identity row; and
    with a count model that declares no active set the prediction raises
    ValueError. *)
Lemma zero_stationary_entry_gives_nan :
  (exists ck,
     new (Point lopsided_model) example_estimator
         (Mat [[Fin 1; Fin 0]; [Fin 0; Fin 1]]) MlagsNone (Fin (95 # 100)) false
       = Ok ck /\
     self_P0 ck = Some [[Fin 1; NaN]; [Fin 0; NaN]] /\
     _compute_observables (Point lopsided_model) 1 ck
       = (Ok [[Fin 1; Fin 0]; [NaN; NaN]], ck)) /\
  (exists ck,
     new (Point undeclared_model) example_estimator
         (Mat [[Fin 1; Fin 0]; [Fin 0; Fin 1]]) MlagsNone (Fin (95 # 100)) false
       = Ok ck /\
     _compute_observables (Point undeclared_model) 1 ck
       = (Raise ValueError, ck)).
Proof.
  split; eexists; repeat split; vm_compute; reflexivity.
Qed.


(** C7, as stated, fails for every tolerance the specification names
    (1e-8 to 1e-6): memberships whose second row sums to 1.000005 are
    accepted. *)
Lemma loose_row_sum_accepted :
  exists ck,
    new (Point reference_model) example_estimator (Mat loose_memberships)
        MlagsNone (Fin (95 # 100)) false = Ok ck /\
    self_memberships ck = Some loose_memberships /\
    np.sum [Fin (500005 # 1000000); Fin (1 # 2)] = Fin (200001 # 200000) /\
    ~ within (1 # 1000000) (np.sum [Fin (500005 # 1000000); Fin (1 # 2)]) fone.
Proof.
  eexists. split; [vm_compute; reflexivity|]. split; [reflexivity|].
  split; [reflexivity|]. vm_compute. intros H. apply H. reflexivity.
Qed.

(** C3, as stated, fails: for a model estimated on state 0 alone the
    second [P0] column has no mass in the subset, and
    [_compute_observables] returns a matrix whose second row is NaN instead
    of raising. *)
Lemma zero_mass_subset_not_raised :
  new (Point reference_model) example_estimator (Mat hard_partition)
      MlagsNone (Fin (95 # 100)) false = Ok example_validator /\
  find_subset one_state_model example_validator
    = (Ok (IVec [0]), example_validator) /\
  (do p0 <- P0_column 1; lift (gather p0 [0]))%method example_validator
    = (Ok [Fin 0], example_validator) /\
  _compute_observables (Point one_state_model) 1 example_validator
    = (Ok [[Fin 1; Fin 0]; [NaN; NaN]], example_validator).
Proof. repeat split; vm_compute; reflexivity. Qed.

(** * The theorems at concrete inputs *)

Lemma hard_partition_identity_dynamics_witness :
  exists ck,
    new (Point reference_model) example_estimator
        (Mat [[Fin 1; Fin 0]; [Fin 0; Fin 1]]) MlagsNone (Fin (95 # 100)) false
      = Ok ck /\
    forall mlag : Z,
      _compute_observables (Point reference_model) mlag ck
        = (Ok [[Fin 1; Fin 0]; [Fin 0; Fin 1]], ck).
Proof.
  apply (hard_partition_identity_dynamics (1 # 2) (1 # 2) 0 1 no_pcca
           example_estimator MlagsNone (Fin (95 # 100)) false).
  - unfold Qeq. simpl. lia.
  - unfold Qeq. simpl. lia.
  - lia.
Defined.


Lemma zero_mass_renormalized_to_nan_witness :
  (do b <- index_column 1 (IVec [0]); do b' <- renormalize b; contents b')%method
      example_validator
    = (Ok (Vec (replicate (length [0]) NaN)), example_validator) /\
  predicted_row one_state_model 1 (IVec [0]) 1 example_validator =
  (do pksub <- lift (propagate one_state_model (Vec (replicate (length [0]) NaN)) 1);
   do nsets <- attr self_nsets;
   map_onto_sets (IVec [0]) pksub nsets)%method example_validator.
Proof.
  apply (zero_mass_renormalized_to_nan one_state_model 1 example_validator
           hard_partition 1 [Fin 0; Fin 1] [0] [Fin 0] 0).
  - reflexivity.
  - reflexivity.
  - reflexivity.
  - constructor; [|constructor]. simpl. unfold Qle. simpl. lia.
  - reflexivity.
  - reflexivity.
Defined.


Lemma invalid_memberships_rejected_witness :
  new (Point reference_model) example_estimator (Vec [Fin 1; Fin 0])
      MlagsNone (Fin (95 # 100)) false = Raise ValueError /\
  new (Point reference_model) example_estimator
      (Mat [[Fin 1; Fin 0]; [Fin (1 # 2); Fin 0]])
      MlagsNone (Fin (95 # 100)) false = Raise AssertionError /\
  (forall s, (memberships_setter (Mat loose_memberships) s).1 = Ok tt) /\
  exists rows, Mat hard_partition = Mat rows /\ np.rectangular rows = true /\
    self_memberships example_validator = Some rows /\
    self_n_states example_validator = Some (length rows) /\
    self_nsets example_validator = Some (np.ncols rows).
Proof.
  split; [|split; [|split]].
  - apply (proj1 (invalid_memberships_rejected (Point reference_model)
             example_estimator (Vec [Fin 1; Fin 0]) MlagsNone (Fin (95 # 100)) false)).
    reflexivity.
  - apply (proj1 (proj2 (invalid_memberships_rejected (Point reference_model)
             example_estimator (Mat [[Fin 1; Fin 0]; [Fin (1 # 2); Fin 0]])
             MlagsNone (Fin (95 # 100)) false))
             [[Fin 1; Fin 0]; [Fin (1 # 2); Fin 0]] [Fin (1 # 2); Fin 0] (1 # 2)).
    + reflexivity.
    + reflexivity.
    + right. left.
    + simpl. lia.
    + constructor; [|constructor; [|constructor]]; simpl; unfold Qle; simpl; lia.
    + reflexivity.
    + unfold Qlt. simpl. lia.
  - apply (proj1 (proj2 (proj2 (invalid_memberships_rejected (Point reference_model)
             example_estimator (Mat loose_memberships) MlagsNone (Fin (95 # 100)) false)))
             loose_memberships).
    + reflexivity.
    + reflexivity.
    + simpl. lia.
    + constructor; [|constructor; [|constructor]].
      * split; [constructor; [|constructor; [|constructor]]; simpl; unfold Qle; simpl; lia|].
        exists 1%Q. split; [reflexivity|]. unfold Qle. simpl. lia.
      * split; [constructor; [|constructor; [|constructor]]; simpl; unfold Qle; simpl; lia|].
        exists (200001 # 200000)%Q. split; [reflexivity|]. unfold Qle. simpl. lia.
  - apply (proj2 (proj2 (proj2 (invalid_memberships_rejected (Point reference_model)
             example_estimator (Mat hard_partition) MlagsNone (Fin (95 # 100)) false)))
             example_validator).
    vm_compute. reflexivity.
Defined.

Lemma pcca_fallback_identity_witness :
  cktest_memberships (Point reference_model) 2 None
    = Ok (Mat (np.eye (n_states reference_model))) /\
  cktest idle_fit example_estimator (Point reference_model) [[0; 1; 1; 0]]
         2 None MlagsNone (Fin (95 # 100)) false =
  cktest idle_fit example_estimator (Point reference_model) [[0; 1; 1; 0]]
         2 (Some (Mat (np.eye (n_states reference_model))))
         MlagsNone (Fin (95 # 100)) false /\
  (memberships_setter (Mat (np.eye (n_states reference_model))) blank).1 = Ok tt /\
  new (Point reference_model) example_estimator
      (Mat (np.eye (n_states reference_model))) MlagsNone (Fin (95 # 100)) false
    = Ok example_validator /\
  self_memberships example_validator = Some (np.eye (n_states reference_model)) /\
  self_nsets example_validator = Some (n_states reference_model) /\
  cktest idle_fit example_estimator (Point reference_model) [[0; 1; 1; 0]] 2 None
         MlagsNone (Fin (95 # 100)) false = Ok example_validator.
Proof.
  destruct (pcca_fallback_identity idle_fit example_estimator
              reference_model [[0; 1; 1; 0]] 2 MlagsNone (Fin (95 # 100)) false blank
              eq_refl) as (H1 & H2 & H3 & H4).
  split; [exact H1|]. split; [exact H2|]. split; [exact H3|].
  apply (H4 (mkCK (Some hard_partition) (Some 2) (Some 2) (Some false)
               (Some reference_model) (Some hard_partition) (Some [0; 1])
               None None None)
            (Ok tt) example_validator).
  - vm_compute. reflexivity.
  - reflexivity.
Defined.

Lemma remap_table_gaps_are_zero_witness :
  exists t,
    self_full2active gapped_validator = Some t /\
    length t = max_list [0; 2] + 1 /\
    (forall f, f <= max_list [0; 2] -> f ∉ [0; 2] -> t !! f = Some 0) /\
    (forall (m' : MarkovStateModel) (cm' : TransitionCountModel) (B : list nat),
       count_model m' = Some cm' -> active_set cm' = Some B ->
       Forall (fun f => f <= max_list [0; 2]) B ->
       exists l, find_subset m' gapped_validator = (Ok (IVec l), gapped_validator) /\
         length l = length B /\
         forall k f, B !! k = Some f -> f ∉ [0; 2] -> l !! k = Some 0).
Proof.
  apply (remap_table_gaps_are_zero (Point gapped_model) example_validator
           gapped_validator {| active_set := Some [0; 2] |} [0; 2]).
  - vm_compute. reflexivity.
  - reflexivity.
  - reflexivity.
Defined.

(** * Further properties of the validator *)

(** ** Reading a method run backwards *)

Lemma bind_ok_inv {A B} (c : method A) (k : A -> method B)
    (s s' : ChapmanKolmogorovValidator) (b : B) :
  bind_m c k s = (Ok b, s') ->
  exists a s1, c s = (Ok a, s1) /\ k a s1 = (Ok b, s').
Proof.
  unfold bind_m. destruct (c s) as [[a|e] s1]; [|discriminate].
  intros H. by exists a, s1.
Qed.

Lemma preserves_run {A} (c : method A) (s s1 : ChapmanKolmogorovValidator)
    (r : result A) :
  preserves c -> c s = (r, s1) -> s1 = s.
Proof. intros Hc H. specialize (Hc s). by rewrite H in Hc. Qed.

(** A loop that returns has produced one value per element, each returned
    by the body. *)
Lemma for_each_Forall {A B} (body : A -> method B) (Q : B -> Prop)
    (xs : list A) (s s' : ChapmanKolmogorovValidator) (ys : list B) :
  (forall x s1 y s2, body x s1 = (Ok y, s2) -> Q y) ->
  for_each body xs s = (Ok ys, s') ->
  length ys = length xs /\ Forall Q ys.
Proof.
  intros HQ. revert s s' ys. induction xs as [|x xs IH]; intros s s' ys; simpl.
  - unfold unit_m. intros [= <- _]. by split.
  - intros (y & s1 & Hy & H)%bind_ok_inv.
    apply bind_ok_inv in H as (ys' & s2 & Hys & H).
    unfold unit_m in H. injection H as <- _.
    destruct (IH _ _ _ Hys) as [Hlen HF]. split; [simpl; by rewrite Hlen|].
    constructor; [by eapply HQ|exact HF].
Qed.

Lemma preserves_predicted_row (model : MarkovStateModel) (mlag : Z)
    (subset : index) (i : nat) :
  preserves (predicted_row model mlag subset i).
Proof.
  unfold predicted_row.
  apply preserves_bind_post with (Q := fun b => subset <> INone -> exists a, b = Fresh a).
  - auto with preserves.
  - intros s0 b s1 Hb Hsub. by eapply index_column_fresh.
  - intros b Hb. apply preserves_bind.
    + destruct subset as [|l|ll]; [apply preserves_unit| |];
        (destruct Hb as [a ->]; [done|apply preserves_renormalize_fresh]).
    + intros b'. auto 8 with preserves.
Qed.

Lemma map_onto_sets_length (subset : index) (pksub : ndarray) (n : nat)
    (s s' : ChapmanKolmogorovValidator) (row : list float) :
  map_onto_sets subset pksub n s = (Ok row, s') -> length row = n.
Proof.
  unfold map_onto_sets. intros H.
  apply (for_each_Forall _ (fun _ => True)) in H as [Hlen _]; [|done].
  by rewrite Hlen, length_seq.
Qed.

(** X1.  A matrix that [_compute_observables] returns has [nsets] rows of
    [nsets] entries. *)
Theorem compute_observables_shape
    (model : Model) (mlag : Z) (s s' : ChapmanKolmogorovValidator)
    (pk_on_set : matrix) :
  _compute_observables model mlag s = (Ok pk_on_set, s') ->
  exists n, self_nsets s = Some n /\
    length pk_on_set = n /\ Forall (fun row => length row = n) pk_on_set.
Proof.
  unfold _compute_observables.
  intros (n & s1 & Hn & H)%bind_ok_inv.
  pose proof (preserves_run _ _ _ _ (preserves_attr _) Hn) as ->.
  apply bind_ok_inv in H as (subset & s1 & Hsub & H).
  pose proof (preserves_run _ _ _ _ (preserves_find_subset _) Hsub) as ->.
  apply bind_ok_inv in H as (n' & s1 & Hn' & H).
  pose proof (preserves_run _ _ _ _ (preserves_attr _) Hn') as ->.
  unfold attr in Hn, Hn'. destruct (self_nsets s) as [k|] eqn:Hk; [|discriminate].
  injection Hn as <-. injection Hn' as <-.
  exists k. split; [reflexivity|].
  assert (Hrows : forall i s1 row s2,
            predicted_row (unwrap_prior model) mlag subset i s1 = (Ok row, s2) ->
            self_nsets s1 = Some k -> length row = k).
  { intros i s1 row s2 Hrow Hk1. unfold predicted_row in Hrow.
    apply bind_ok_inv in Hrow as (b & t1 & Hb & Hrow).
    pose proof (preserves_run _ _ _ _ (preserves_index_column _ _) Hb) as ->.
    apply bind_ok_inv in Hrow as (b' & t1 & Hb' & Hrow).
    assert (t1 = s1) as ->.
    { destruct subset as [|l|ll].
      - by injection Hb' as _ <-.
      - destruct (index_column_fresh i (IVec l) ltac:(done) _ _ _ Hb) as [a ->].
        eapply preserves_run; [apply preserves_renormalize_fresh|exact Hb'].
      - destruct (index_column_fresh i (IMat ll) ltac:(done) _ _ _ Hb) as [a ->].
        eapply preserves_run; [apply preserves_renormalize_fresh|exact Hb']. }
    apply bind_ok_inv in Hrow as (arg & t1 & Harg & Hrow).
    pose proof (preserves_run _ _ _ _ (preserves_contents _) Harg) as ->.
    apply bind_ok_inv in Hrow as (pk & t1 & Hpk & Hrow).
    pose proof (preserves_run _ _ _ _ (preserves_lift _) Hpk) as ->.
    apply bind_ok_inv in Hrow as (k' & t1 & Hk' & Hrow).
    pose proof (preserves_run _ _ _ _ (preserves_attr _) Hk') as ->.
    unfold attr in Hk'. rewrite Hk1 in Hk'. injection Hk' as <-.
    by eapply map_onto_sets_length. }
  assert (Hgen : forall xs rows s2,
            for_each (predicted_row (unwrap_prior model) mlag subset) xs s = (Ok rows, s2) ->
            length rows = length xs /\ Forall (fun row => length row = k) rows).
  { induction xs as [|x xs IH]; intros rows s2; simpl.
    - unfold unit_m. intros [= <- _]. by split.
    - intros (y & s1 & Hy & H')%bind_ok_inv.
      pose proof (preserves_run _ _ _ _ (preserves_predicted_row _ _ _ _) Hy) as ->.
      apply bind_ok_inv in H' as (ys' & s3 & Hys & H').
      unfold unit_m in H'. injection H' as <- _.
      destruct (IH _ _ Hys) as [Hlen HF]. split; [simpl; by rewrite Hlen|].
      constructor; [by eapply Hrows|exact HF]. }
  destruct (Hgen _ _ _ H) as [Hlen HF].
  rewrite length_seq in Hlen. by split.
Qed.

(** X2.  The two matrices that [_compute_observables_conf] returns have [nsets]
    rows of [nsets] entries each. *)
Theorem compute_observables_conf_shape
    (confidence_interval : list float -> float -> float * float)
    (model : Model) (mlag : Z) (conf : float)
    (s s' : ChapmanKolmogorovValidator) (l r : matrix) :
  _compute_observables_conf confidence_interval model mlag conf s = (Ok (l, r), s') ->
  exists n, self_nsets s = Some n /\
    length l = n /\ Forall (fun row => length row = n) l /\
    length r = n /\ Forall (fun row => length row = n) r.
Proof.
  unfold _compute_observables_conf.
  intros (prior & s1 & Hprior & H)%bind_ok_inv.
  pose proof (preserves_run _ _ _ _ (preserves_lift _) Hprior) as ->.
  apply bind_ok_inv in H as (subset & s1 & Hsub & H).
  pose proof (preserves_run _ _ _ _ (preserves_find_subset _) Hsub) as ->.
  apply bind_ok_inv in H as (n & s1 & Hn & H).
  pose proof (preserves_run _ _ _ _ (preserves_attr _) Hn) as ->.
  unfold attr in Hn. destruct (self_nsets s) as [k|] eqn:Hk; [|discriminate].
  injection Hn as <-. exists k. split; [reflexivity|].
  apply bind_ok_inv in H as (cells & s1 & Hcells & H).
  unfold unit_m in H. injection H as <- <- _.
  apply (for_each_Forall _ (fun row => length row = k)) in Hcells as [Hlen HF].
  - rewrite length_seq in Hlen. rewrite !length_map.
    repeat split; try done.
    + apply Forall_fmap. eapply Forall_impl; [exact HF|].
      simpl. intros row <-. apply length_map.
    + apply Forall_fmap. eapply Forall_impl; [exact HF|].
      simpl. intros row <-. apply length_map.
  - intros i t1 row t2 Hrow.
    apply bind_ok_inv in Hrow as (b & t3 & _ & Hrow).
    apply bind_ok_inv in Hrow as (b' & t4 & _ & Hrow).
    apply bind_ok_inv in Hrow as (samples & t5 & _ & Hrow).
    apply bind_ok_inv in Hrow as (pks & t6 & _ & Hrow).
    apply (for_each_Forall _ (fun _ => True)) in Hrow as [Hlen _]; [|done].
    by rewrite Hlen, length_seq.
Qed.

(** ** Indices outside the remap table *)

Lemma gather_out_of_range {A} (t : list A) (B : list nat) :
  Exists (fun f => length t <= f) B -> gather t B = Raise IndexError.
Proof.
  unfold gather. induction B as [|f B IH]; intros H; [by apply Exists_nil in H|].
  simpl. destruct (t !! f) as [x|] eqn:Hx; [|reflexivity]. simpl.
  apply Exists_cons in H as [H|H].
  - apply lookup_lt_Some in Hx. lia.
  - by rewrite (IH H).
Qed.

(** X3.  A model whose active set contains a full-space index beyond the last
    entry of the remap table cannot be evaluated: [_compute_observables]
    raises IndexError and leaves the validator as it was. *)
Theorem active_set_beyond_table_raises
    (model : Model) (mlag : Z) (s : ChapmanKolmogorovValidator)
    (n : nat) (t : list nat) (cm : TransitionCountModel) (B : list nat) :
  self_nsets s = Some n ->
  self_full2active s = Some t ->
  count_model (unwrap_prior model) = Some cm ->
  active_set cm = Some B ->
  Exists (fun f => length t <= f) B ->
  _compute_observables model mlag s = (Raise IndexError, s).
Proof.
  intros Hn Ht Hcm HB Hout.
  unfold _compute_observables, find_subset, bind_m, attr, lift, from_option.
  by rewrite Hn, Hcm, Ht, HB, (gather_out_of_range t B Hout).
Qed.

Lemma active_set_beyond_table_raises_witness :
  _compute_observables
      (Point (two_state_model (1 # 2) (1 # 2) 0 2 no_pcca)) 3 example_validator
    = (Raise IndexError, example_validator).
Proof.
  apply (active_set_beyond_table_raises _ 3 example_validator 2 [0; 1]
           {| active_set := Some [0; 2] |} [0; 2]); try reflexivity.
  apply Exists_cons. right. apply Exists_cons. left. simpl. lia.
Defined.

(** ** The remap table inverts the active set *)

Lemma scatter_lookup_NoDup (t idx vals : list nat) (k f a : nat) :
  NoDup idx -> Forall (fun g => g < length t) idx ->
  idx !! k = Some f -> vals !! k = Some a ->
  scatter t idx vals !! f = Some a.
Proof.
  revert t vals k. induction idx as [|g idx IH]; intros t vals k Hnd Hin Hf Ha;
    [done|].
  apply NoDup_cons in Hnd as [Hg Hnd]. apply Forall_cons in Hin as [Hgt Hin].
  destruct vals as [|b vals]; [by destruct k|]. simpl.
  destruct k as [|k]; simpl in Hf, Ha.
  - injection Hf as <-. injection Ha as <-.
    rewrite scatter_lookup_notin by done. by apply list_lookup_insert_eq.
  - eapply IH; try done.
    eapply Forall_impl; [exact Hin|]. simpl. intros h Hh. by rewrite length_insert.
Qed.

Lemma max_list_bound (A : list nat) (f : nat) : f ∈ A -> f <= max_list A.
Proof.
  induction A as [|a A IH]; [by intros ?%elem_of_nil|].
  intros [->|H]%elem_of_cons; simpl; [lia|]. specialize (IH H). lia.
Qed.

(** X4.  After a binding whose active set [A] lists [n_states] distinct
    indices, the remap table sends the [k]-th entry of [A] to [k].  A model
    whose declared active set [B] lies within [A] is therefore remapped
    without error to the positions its states have in [A]. *)
Theorem remap_table_round_trip
    (model : Model) (s s' : ChapmanKolmogorovValidator)
    (cm : TransitionCountModel) (A : list nat) :
  test_model_setter model s = (Ok tt, s') ->
  count_model (unwrap_prior model) = Some cm ->
  effective_active_set (unwrap_prior model) cm = A ->
  NoDup A ->
  length A = n_states (unwrap_prior model) ->
  exists t,
    self_full2active s' = Some t /\
    (forall k f, A !! k = Some f -> t !! f = Some k) /\
    (forall (m' : MarkovStateModel) (cm' : TransitionCountModel) (B : list nat),
       count_model m' = Some cm' -> active_set cm' = Some B -> B ⊆ A ->
       exists l, find_subset m' s' = (Ok (IVec l), s') /\
         length l = length B /\
         forall j f k, B !! j = Some f -> A !! k = Some f -> l !! j = Some k).
Proof.
  intros Hset Hcm HA Hnd Hlen.
  apply test_model_setter_ok in Hset
    as (M & P & cm0 & t & _ & _ & _ & Hcm0 & _ & Ht & ->).
  rewrite Hcm in Hcm0. injection Hcm0 as <-. rewrite HA in Ht.
  assert (Hin : Forall (fun g => g < length (replicate (max_list A + 1) 0)) A).
  { apply Forall_forall. intros g Hg. rewrite length_replicate.
    apply max_list_bound in Hg. lia. }
  assert (Hall : forallb (fun g => g <? length (replicate (max_list A + 1) 0)) A = true).
  { apply forallb_forall. intros g Hg%list_elem_of_In. apply Nat.ltb_lt.
    eapply Forall_forall in Hin; [exact Hin|done]. }
  unfold assign_at in Ht. rewrite Hall in Ht.
  unfold np.arange in Ht. rewrite length_seq, <- Hlen, Nat.eqb_refl in Ht.
  injection Ht as <-.
  set (t := scatter _ A _).
  assert (Hrt : forall k f, A !! k = Some f -> t !! f = Some k).
  { intros k f Hk. unfold t. eapply scatter_lookup_NoDup; try done.
    rewrite lookup_seq_lt; [done|]. by eapply lookup_lt_Some. }
  exists t. split; [reflexivity|]. split; [exact Hrt|].
  intros m' cm' B Hcm' HB Hsub.
  destruct (gather_in_range t B) as (l & Hl & HlB & Hlk).
  { apply Forall_forall. intros f Hf. unfold t.
    rewrite length_scatter. eapply Forall_forall in Hin; [exact Hin|]. by apply Hsub. }
  exists l. split; [|split; [exact HlB|]].
  - unfold find_subset. rewrite Hcm'. step_method. rewrite HB.
    fold (gather t B). by rewrite Hl.
  - intros j f k Hj Hk. rewrite (Hlk j f Hj). by apply Hrt.
Qed.

(** ** How the [test_model] setter fails *)

(** X5.  A model whose [n_states] differs from the number of membership rows
    is refused with AssertionError before anything is stored. *)
Theorem n_states_mismatch_refused
    (model : Model) (s : ChapmanKolmogorovValidator) (M : matrix) :
  self_memberships s = Some M ->
  length M <> n_states (unwrap_prior model) ->
  test_model_setter model s = (Raise AssertionError, s).
Proof.
  intros HM Hne. apply Nat.eqb_neq in Hne.
  unfold test_model_setter, py_assert, bind_m, attr, lift, from_option.
  by rewrite HM, Hne.
Qed.

(** X6.  A model without a count model makes the setter raise AttributeError
    after it has stored the model and the new [P0]: the remap table is
    still the one of the previous binding. *)
Theorem missing_count_model_half_bound
    (model : Model) (s : ChapmanKolmogorovValidator) (M P : matrix) :
  let m := unwrap_prior model in
  self_memberships s = Some M ->
  length M = n_states m ->
  mul_column M (stationary_distribution m) = Ok P ->
  count_model m = None ->
  let s' := (test_model_setter model s).2 in
  (test_model_setter model s).1 = Raise AttributeError /\
  self_test_model s' = Some m /\
  self_P0 s' = Some (div_rows P (np.sum_axis0 P)) /\
  self_full2active s' = self_full2active s.
Proof.
  intros m HM Hn HP Hcm. apply Nat.eqb_eq in Hn.
  unfold test_model_setter, py_assert. fold m.
  unfold bind_m, attr, lift, assign, from_option.
  rewrite HM, Hn. cbn [self_memberships set_test_model_attr].
  by rewrite HM, HP, Hcm.
Qed.

(** X7.  An empty active set makes the setter raise ValueError (the maximum of
    an empty array), again after the model and [P0] have been stored. *)
Theorem empty_active_set_raises
    (model : Model) (s : ChapmanKolmogorovValidator) (M P : matrix)
    (cm : TransitionCountModel) :
  let m := unwrap_prior model in
  self_memberships s = Some M ->
  length M = n_states m ->
  mul_column M (stationary_distribution m) = Ok P ->
  count_model m = Some cm ->
  effective_active_set m cm = [] ->
  let s' := (test_model_setter model s).2 in
  (test_model_setter model s).1 = Raise ValueError /\
  self_P0 s' = Some (div_rows P (np.sum_axis0 P)) /\
  self_full2active s' = self_full2active s.
Proof.
  intros m HM Hn HP Hcm HA. apply Nat.eqb_eq in Hn.
  unfold test_model_setter, py_assert, np_max. fold m.
  fold (effective_active_set m cm).
  unfold bind_m, attr, lift, assign, from_option.
  rewrite HM, Hn. cbn [self_memberships set_test_model_attr].
  rewrite HM, HP, Hcm. fold (effective_active_set m cm). by rewrite HA.
Qed.

(** X8.  An active set whose length differs from [n_states] (and [n_states] is
    not 1, which would broadcast) makes the setter raise ValueError; by
    then the remap table has been replaced by zeros. *)
Theorem active_set_length_mismatch_raises
    (model : Model) (s : ChapmanKolmogorovValidator) (M P : matrix)
    (cm : TransitionCountModel) (A : list nat) :
  let m := unwrap_prior model in
  self_memberships s = Some M ->
  length M = n_states m ->
  mul_column M (stationary_distribution m) = Ok P ->
  count_model m = Some cm ->
  active_set cm = Some A ->
  A <> [] ->
  length A <> n_states m ->
  n_states m <> 1 ->
  let s' := (test_model_setter model s).2 in
  (test_model_setter model s).1 = Raise ValueError /\
  self_full2active s' = Some (replicate (max_list A + 1) 0).
Proof.
  intros m HM Hn HP Hcm HA Hne Hlen H1. apply Nat.eqb_eq in Hn.
  assert (Hall : forallb (fun g => g <? length (replicate (max_list A + 1) 0)) A = true).
  { apply forallb_forall. intros g Hg%list_elem_of_In. apply Nat.ltb_lt.
    rewrite length_replicate. apply max_list_bound in Hg. lia. }
  assert (Hassign : assign_at (replicate (max_list A + 1) 0) A (np.arange (n_states m))
                    = Raise ValueError).
  { unfold assign_at. rewrite Hall. unfold np.arange. rewrite length_seq.
    rewrite (proj2 (Nat.eqb_neq _ _)) by lia.
    destruct (n_states m) as [|[|k]]; [reflexivity|done|reflexivity]. }
  unfold test_model_setter, py_assert, np_max, np.zeros. fold m.
  unfold bind_m, attr, lift, assign, from_option.
  rewrite HM, Hn. cbn [self_memberships set_test_model_attr].
  rewrite HM, HP, Hcm, HA.
  destruct A as [|a A']; [done|].
  cbn [self_full2active set_full2active_attr]. by rewrite Hassign.
Qed.

(** ** The [memberships] setter on an existing validator *)

Lemma far_row_not_stochastic (rows : matrix) (row : list float) (q : Q) :
  row ∈ rows -> np.sum row = Fin q -> (2 # 100000 < Qabs (q - 1))%Q ->
  row_stochastic rows = false.
Proof.
  intros Hrow Hsum Hfar. destruct (row_stochastic rows) eqn:E; [|reflexivity].
  unfold row_stochastic in E. rewrite forallb_forall in E.
  apply list_elem_of_In in Hrow. specialize (E row Hrow).
  rewrite Hsum, (isclose_far q Hfar) in E. discriminate E.
Qed.

(** X9.  Assigning memberships that are not a two-dimensional array raises
    ValueError and changes nothing; assigning a matrix with a row of at
    most a million entries, none negative, whose sum differs from one by
    more than 2e-5 raises AssertionError after the matrix and its shape
    have been stored.  (The sign and size conditions are not needed by the
    exact sums of this development; with them the float sum of the row is
    off by far less than the distance to the tolerance of [np.allclose],
    and the verdict is the same.) *)
Theorem failed_assignment_of_memberships
    (value : ndarray) (s : ChapmanKolmogorovValidator) :
  (two_dimensional value = false ->
     memberships_setter value s = (Raise ValueError, s)) /\
  (forall rows row q, value = Mat rows -> np.rectangular rows = true ->
     row ∈ rows -> (Z.of_nat (length row) <= 1000000)%Z ->
     Forall nonneg row -> np.sum row = Fin q ->
     (2 # 100000 < Qabs (q - 1))%Q ->
     let s' := (memberships_setter value s).2 in
     (memberships_setter value s).1 = Raise AssertionError /\
     self_memberships s' = Some rows /\
     self_n_states s' = Some (length rows) /\
     self_nsets s' = Some (np.ncols rows)).
Proof.
  rewrite memberships_setter_run. split.
  - intros H2. destruct value as [x|v|rows]; try reflexivity.
    unfold two_dimensional in H2. unfold ensure_ndarray. by rewrite H2.
  - intros rows row q -> Hrect Hrow _ _ Hsum Hfar. unfold ensure_ndarray.
    by rewrite Hrect, (far_row_not_stochastic rows row q Hrow Hsum Hfar).
Qed.

(** X10.  Assigning memberships never recomputes the binding: the stored model,
    [P0] and the remap table are those from before the assignment, whether
    it succeeds or raises. *)
Theorem memberships_setter_keeps_binding
    (value : ndarray) (s : ChapmanKolmogorovValidator) :
  let s' := (memberships_setter value s).2 in
  self_test_model s' = self_test_model s /\
  self_P0 s' = self_P0 s /\
  self_full2active s' = self_full2active s.
Proof.
  rewrite memberships_setter_run.
  destruct (ensure_ndarray value) as [rows|e]; by repeat split.
Qed.

(** ** [cktest] beyond the fallback *)

(** X12.  Only NotImplementedError is intercepted: any other exception raised by
    PCCA ends [cktest] with that exception, and no validator is built. *)
Theorem cktest_passes_on_other_errors
    (fit : dtrajs -> method unit) (test_estimator : Estimator)
    (test_model : Model) (data : dtrajs) (nsets : nat)
    (mlags : mlags_arg) (conf : float) (err_est : bool) (e : exn) :
  attr_pcca test_model nsets = Raise e ->
  e <> NotImplementedError ->
  cktest fit test_estimator test_model data nsets None mlags conf err_est
    = Raise e.
Proof.
  intros Hpcca He. unfold cktest, cktest_memberships. rewrite Hpcca.
  by destruct e.
Qed.

(** X13.  In the fallback the number of sets is the number of states, whatever
    [nsets] was asked for: if [fit] leaves [nsets] alone, the validator
    that [cktest] returns has [nsets = n_states]. *)
Theorem fallback_tests_every_state
    (fit : dtrajs -> method unit) (test_estimator : Estimator)
    (m : MarkovStateModel) (data : dtrajs) (nsets : nat)
    (mlags : mlags_arg) (conf : float) (err_est : bool)
    (ck : ChapmanKolmogorovValidator) :
  pcca m nsets = Raise NotImplementedError ->
  (forall s, self_nsets (fit data s).2 = self_nsets s) ->
  cktest fit test_estimator (Point m) data nsets None mlags conf err_est = Ok ck ->
  self_nsets ck = Some (n_states m).
Proof.
  intros Hpcca Hfit. unfold cktest, cktest_memberships, attr_pcca.
  rewrite Hpcca. cbn [attr_n_states rbind]. rewrite new_run.
  unfold ensure_ndarray. rewrite eye_rectangular, eye_row_stochastic.
  destruct (eye_shape (n_states m)) as [-> ->].
  set (s1 := set_err_est_attr _ _).
  pose proof (test_model_setter_keeps (Point m) s1) as (_ & _ & Hk).
  destruct (test_model_setter (Point m) s1) as [[[]|e] s2]; [|discriminate].
  cbn [rbind]. set (s3 := set_base_attrs _ _ _ _).
  specialize (Hfit s3). destruct (fit data s3) as [[[]|e] s4]; [|discriminate].
  intros [= <-]. simpl in *. by rewrite Hfit, Hk.
Qed.

(** ** The shape of [P0] *)

Lemma div_rows_shape (P : matrix) :
  np.rectangular P = true ->
  Forall (fun r => length r = np.ncols P) (div_rows P (np.sum_axis0 P)).
Proof.
  intros HP%rectangular_Forall. unfold div_rows. apply Forall_fmap.
  eapply Forall_impl; [exact HP|]. simpl. intros r Hr.
  rewrite length_zip_with, length_sum_axis0. lia.
Qed.

(** X14.  After a binding to a model whose stationary distribution has one entry
    per membership row, [P0] has the shape of the memberships. *)
Theorem P0_has_shape_of_memberships
    (model : Model) (s s' : ChapmanKolmogorovValidator) (M : matrix) :
  test_model_setter model s = (Ok tt, s') ->
  self_memberships s = Some M ->
  np.rectangular M = true ->
  length (stationary_distribution (unwrap_prior model)) = length M ->
  exists P0, self_P0 s' = Some P0 /\
    length P0 = length M /\
    Forall (fun r => length r = np.ncols M) P0.
Proof.
  intros Hset HM Hrect Hpi.
  apply test_model_setter_ok in Hset
    as (M' & P & cm & t & HM' & _ & HP & _ & _ & _ & ->).
  rewrite HM in HM'. injection HM' as <-.
  pose proof (mul_column_rectangular M P _ Hrect HP) as HrP.
  unfold mul_column in HP. rewrite (proj2 (Nat.eqb_eq _ _) Hpi) in HP.
  injection HP as <-.
  eexists. split; [reflexivity|].
  assert (Hcols : np.ncols (zip_with (fun row p => map (fun x => fmul x p) row) M
                     (stationary_distribution (unwrap_prior model))) = np.ncols M).
  { destruct M as [|r M], (stationary_distribution (unwrap_prior model)) as [|p pi];
      try done. simpl. apply length_map. }
  split.
  - unfold div_rows. rewrite length_map, length_zip_with. lia.
  - rewrite <- Hcols. by apply div_rows_shape.
Qed.

(** ** Projection onto the sets conserves mass *)

Lemma qsum_Qsum (v : list float) : qsum v = Qsum (map fval v).
Proof. unfold qsum, Qsum. induction v as [|x v IH]; simpl; by rewrite ?IH. Qed.

Lemma Qsum_pointwise (f g : nat -> Q) (js : list nat) :
  (forall j, j ∈ js -> (f j == g j)%Q) ->
  (Qsum (map f js) == Qsum (map g js))%Q.
Proof.
  induction js as [|j js IH]; intros H; simpl; [reflexivity|].
  rewrite (H j) by (by left). rewrite IH; [reflexivity|].
  intros j' Hj'. apply H. by right.
Qed.

Lemma Qsum_linear (a : Q) (f g : nat -> Q) (js : list nat) :
  (Qsum (map (fun j => a * f j + g j) js)
   == a * Qsum (map f js) + Qsum (map g js))%Q.
Proof.
  induction js as [|j js IH]; simpl; [ring|]. rewrite IH. ring.
Qed.

Lemma Qsum_zero (js : list nat) : (Qsum (map (fun _ => 0) js) == 0)%Q.
Proof. induction js as [|j js IH]; simpl; [reflexivity|]. rewrite IH. ring. Qed.

(** Summing the entries of a row by position. *)
Lemma Qsum_by_index (r : list float) :
  (Qsum (map (fun j => fval (default NaN (r !! j))) (seq 0 (length r)))
   == qsum r)%Q.
Proof.
  induction r as [|x r IH]; [reflexivity|].
  cbn [length seq map Qsum foldr qsum]. fold (Qsum (map (fun j => fval (default NaN ((x :: r) !! j))) (seq 1 (length r)))).
  rewrite <- fmap_S_seq.
  change (map ?f (S <$> ?l)) with (map f (map S l)). rewrite map_map.
  cbn [lookup list_lookup default]. fold (qsum r). by rewrite IH.
Qed.

Lemma inner_finite (v c : list float) :
  Forall is_fin v -> Forall is_fin c ->
  exists d, np.inner v c = Fin d /\ (d == qsum (zip_with fmul v c))%Q.
Proof.
  intros Hv Hc. unfold np.inner.
  assert (Hz : Forall is_fin (zip_with fmul v c)).
  { revert c Hc. induction Hv as [|x v Hx _ IH]; intros c Hc; [constructor|].
    destruct Hc as [|y c Hy Hc]; [constructor|]. simpl.
    constructor; [|by apply IH].
    destruct x, y; done. }
  rewrite (sum_finite _ Hz). eexists. split; [reflexivity|]. apply Qred_correct.
Qed.

Lemma col_finite (j : nat) (R : matrix) :
  Forall (fun r => exists b, r !! j = Some (Fin b)) R -> Forall is_fin (np.col j R).
Proof.
  unfold np.col. induction 1 as [|r R [b Hb] _ IH]; simpl; constructor; [|exact IH].
  by rewrite Hb.
Qed.

(** Rows whose sums over the positions [js] lie within [e] of one pass on
    the mass of a non-negative [v] up to the factor [1 - e] or [1 + e]. *)
Lemma projected_mass (js : list nat) (v : list float) (R : matrix) (e : Q) :
  Forall nonneg v ->
  Forall (fun r => Forall (fun j => exists b, r !! j = Some (Fin b)) js /\
            (1 - e <= Qsum (map (fun j => fval (default NaN (r !! j))) js))%Q /\
            (Qsum (map (fun j => fval (default NaN (r !! j))) js) <= 1 + e)%Q) R ->
  length v = length R ->
  ((1 - e) * qsum v
     <= Qsum (map (fun j => fval (np.inner v (np.col j R))) js))%Q /\
  (Qsum (map (fun j => fval (np.inner v (np.col j R))) js)
     <= (1 + e) * qsum v)%Q.
Proof.
  intros Hv. revert R. induction Hv as [|x v Hx Hv IH]; intros R HR Hlen.
  - assert (H0 : (Qsum (map (fun j => fval (np.inner [] (np.col j R))) js) == 0)%Q).
    { rewrite <- (Qsum_zero js). apply Qsum_pointwise. intros j _. reflexivity. }
    rewrite H0. simpl. split; lra.
  - destruct HR as [|r R (Hr & Hlo & Hhi) HR]; [done|].
    destruct x as [a| | |]; try done. simpl in Hx.
    simpl in Hlen. injection Hlen as Hlen.
    destruct (IH R HR Hlen) as [IHlo IHhi].
    assert (Hfin : Forall is_fin v).
    { eapply Forall_impl; [exact Hv|]. by intros [b| | |]. }
    assert (Hstep :
      (Qsum (map (fun j => fval (np.inner (Fin a :: v) (np.col j (r :: R)))) js)
       == a * Qsum (map (fun j => fval (default NaN (r !! j))) js)
          + Qsum (map (fun j => fval (np.inner v (np.col j R))) js))%Q).
    { rewrite <- Qsum_linear. apply Qsum_pointwise. intros j Hj.
      eapply Forall_forall in Hr as [b Hb]; [|exact Hj].
      assert (HcR : Forall is_fin (np.col j R)).
      { apply col_finite. eapply Forall_impl; [exact HR|]. simpl.
        intros r' [Hr' _]. eapply Forall_forall in Hr'; [exact Hr'|exact Hj]. }
      destruct (inner_finite v (np.col j R) Hfin HcR) as (d & Hd & _).
      change (np.inner (Fin a :: v) (np.col j (r :: R)))
        with (fadd (fmul (Fin a) (default NaN (r !! j))) (np.inner v (np.col j R))).
      rewrite Hb, Hd. simpl. by rewrite !Qred_correct. }
    rewrite Hstep. cbn [qsum foldr fval]. fold (qsum v).
    revert Hlo Hhi IHlo IHhi.
    generalize (Qsum (map (fun j => fval (default NaN (r !! j))) js)).
    generalize (Qsum (map (fun j => fval (np.inner v (np.col j R))) js)).
    generalize (qsum v). intros S Y q Hlo Hhi IHlo IHhi. split; nra.
Qed.

(** A loop whose body returns [g x] and leaves the object alone returns
    the list of the [g x]. *)
Lemma for_each_map {A B} (body : A -> method B) (g : A -> B) (xs : list A)
    (s : ChapmanKolmogorovValidator) :
  (forall x, x ∈ xs -> body x s = (Ok (g x), s)) ->
  for_each body xs s = (Ok (map g xs), s).
Proof.
  induction xs as [|x xs IH]; intros H; [reflexivity|].
  simpl. unfold bind_m. rewrite (H x) by (by left).
  rewrite IH; [reflexivity|]. intros y Hy. apply H. by right.
Qed.

(** [self.memberships[l, j]] is column [j] of the rows selected by [l]. *)
Lemma select_column (M R : matrix) (l : list nat) (j : nat) :
  gather M l = Ok R ->
  Forall (fun r => j < length r) R ->
  rmap (fun k => from_option IndexError (M !! k ≫= fun row => row !! j)) l
    = Ok (np.col j R).
Proof.
  unfold gather, matrix in *. revert R. induction l as [|k l IH]; intros R; simpl.
  - by intros [= <-].
  - destruct (M !! k) as [row|]; simpl; [|intros H; discriminate H].
    destruct (rmap _ l) as [R'|] eqn:HR'; simpl; [|intros H; discriminate H].
    intros [= <-] HF. apply Forall_cons in HF as [Hj HF].
    destruct (lookup_lt_is_Some_2 row j Hj) as [x Hx].
    rewrite Hx. simpl. rewrite (IH R' eq_refl HF). simpl. by rewrite Hx.
Qed.

Lemma gather_elem_of {A} (a : list A) (l : list nat) (v : list A) :
  gather a l = Ok v -> Forall (fun x => x ∈ a) v.
Proof.
  unfold gather. revert v. induction l as [|k l IH]; intros v; simpl.
  - intros [= <-]. constructor.
  - destruct (a !! k) as [x|] eqn:Hx; simpl; [|intros H; discriminate H].
    destruct (rmap _ l) as [v'|]; simpl; [|intros H; discriminate H].
    intros [= <-]. constructor; [by eapply list_elem_of_lookup_2|by apply IH].
Qed.

Lemma near_unit_row (r : list float) (e : Q) :
  within e (np.sum r) fone ->
  Forall (fun j => exists b, r !! j = Some (Fin b)) (seq 0 (length r)) /\
  (1 - e <= Qsum (map (fun j => fval (default NaN (r !! j))) (seq 0 (length r))))%Q /\
  (Qsum (map (fun j => fval (default NaN (r !! j))) (seq 0 (length r))) <= 1 + e)%Q.
Proof.
  unfold within, fone. destruct (np.sum r) as [q| | |] eqn:Hsum; try done.
  intros Hq. pose proof (sum_Fin_inv r q Hsum) as Hfin. split.
  - apply Forall_forall. intros j Hj%elem_of_seq.
    destruct (lookup_lt_is_Some_2 r j ltac:(lia)) as [x Hx].
    eapply Forall_lookup_1 in Hfin; [|exact Hx].
    destruct x as [b| | |]; try done. by exists b.
  - rewrite Qsum_by_index. rewrite (sum_finite r Hfin) in Hsum.
    injection Hsum as Hsum.
    assert (Heq : (qsum r == q)%Q)
      by (rewrite <- Hsum; symmetry; apply Qred_correct).
    rewrite Heq. apply Qabs_Qle_condition in Hq as [Hlo Hhi]. split; lra.
Qed.

(** X15.  The inner loop for a declared subset [l] and a vector [pksub] of
    matching length, at most a million entries in [l] and at most a million
    sets: when no membership is negative, every membership row sums to one
    within 1e-5, no entry of [pksub] is negative and [pksub] sums to one
    within 1e-6, the computed row has one entry per set and sums to one
    within 3e-5; the projection onto the sets keeps the probabilities
    normalized.  (The sign and size conditions are not needed by the exact
    sums of this development; with them the float sums are without
    cancellation and off by far less than what the bound leaves.) *)
Theorem projection_conserves_mass
    (s : ChapmanKolmogorovValidator) (M R : matrix) (l : list nat)
    (pksub : list float) :
  self_memberships s = Some M ->
  np.rectangular M = true ->
  (Z.of_nat (np.ncols M) <= 1000000)%Z ->
  (Z.of_nat (length l) <= 1000000)%Z ->
  Forall (fun r => Forall nonneg r /\ within (1 # 100000) (np.sum r) fone) M ->
  gather M l = Ok R ->
  length pksub = length l ->
  Forall nonneg pksub ->
  within (1 # 1000000) (np.sum pksub) fone ->
  exists row,
    map_onto_sets (IVec l) (Vec pksub) (np.ncols M) s = (Ok row, s) /\
    length row = np.ncols M /\
    within (3 # 100000) (np.sum row) fone.
Proof.
  intros HM Hrect _ _ Hone HR Hlen Hpos Htot.
  apply rectangular_Forall in Hrect.
  pose proof (gather_elem_of _ _ _ HR) as HRM.
  pose proof (length_gather _ _ _ HR) as HRl.
  set (n := np.ncols M) in *.
  assert (Hrows : Forall (fun r => length r = n /\
                            within (1 # 100000) (np.sum r) fone) R).
  { eapply Forall_impl; [exact HRM|]. simpl. intros r Hr. split.
    - eapply Forall_forall in Hrect; [exact Hrect|exact Hr].
    - eapply Forall_forall in Hone as [_ Hone]; [exact Hone|exact Hr]. }
  assert (Hfin : Forall is_fin pksub).
  { eapply Forall_impl; [exact Hpos|]. by intros [b| | |]. }
  set (g := fun j => np.inner pksub (np.col j R)).
  exists (map g (seq 0 n)). split; [|split].
  - unfold map_onto_sets. apply for_each_map. intros j Hj%elem_of_seq.
    unfold memberships_at, bind_m, attr, lift, unit_m. rewrite HM.
    cbn [from_option].
    rewrite (select_column M R l j HR).
    + cbn [np.dot]. unfold np.col. rewrite length_map, Hlen, HRl, Nat.eqb_refl.
      reflexivity.
    + eapply Forall_impl; [exact Hrows|]. simpl. intros r [-> _]. lia.
  - by rewrite length_map, length_seq.
  - assert (Hg : forall j, j ∈ seq 0 n -> is_fin (g j)).
    { intros j Hj%elem_of_seq. unfold g.
      destruct (inner_finite pksub (np.col j R) Hfin) as (d & -> & _); [|done].
      apply col_finite. eapply Forall_impl; [exact Hrows|]. simpl.
      intros r [Hr Hs]. destruct (near_unit_row r _ Hs) as [Hb _].
      eapply Forall_forall in Hb; [exact Hb|]. apply elem_of_seq. lia. }
    rewrite sum_finite by (apply Forall_fmap, Forall_forall; exact Hg).
    rewrite (sum_finite pksub Hfin) in Htot.
    unfold fin, within, fone in *. rewrite Qred_correct in Htot |- *.
    rewrite qsum_Qsum, map_map.
    destruct (projected_mass (seq 0 n) pksub R (1 # 100000) Hpos) as [Hlo Hhi];
      [|lia|].
    { eapply Forall_impl; [exact Hrows|]. simpl. intros r [Hr Hs].
      rewrite <- Hr. by apply near_unit_row. }
    apply Qabs_Qle_condition in Htot as [Tlo Thi].
    apply Qabs_Qle_condition.
    change (map (fun x => fval (g x)) (seq 0 n))
      with (map (fun j => fval (np.inner pksub (np.col j R))) (seq 0 n)).
    revert Hlo Hhi Tlo Thi.
    generalize (Qsum (map (fun j => fval (np.inner pksub (np.col j R))) (seq 0 n))).
    generalize (qsum pksub). intros T X Hlo Hhi Tlo Thi. split; lra.
Qed.

(** ** [_compute_observables_conf] and the stored [P0] *)

Lemma find_subset_declared (m : MarkovStateModel) :
  count_model m <> None -> returns (find_subset m) (fun subset => subset <> INone).
Proof.
  intros Hcm s subset s'. unfold find_subset.
  destruct (count_model m) as [cm|]; [|done]. step_method.
  repeat (destruct_match; simpl; try done); by intros [= <- _].
Qed.

(** X16.  When the posterior's prior has a count model, the renormalization in
    [_compute_observables_conf] acts on copies: the call returns the
    validator object exactly as it found it, whatever its outcome. *)
Theorem compute_observables_conf_keeps_object
    (confidence_interval : list float -> float -> float * float)
    (model : Model) (mlag : Z) (conf : float) (s : ChapmanKolmogorovValidator) :
  (forall prior, attr_prior model = Ok prior -> count_model prior <> None) ->
  (_compute_observables_conf confidence_interval model mlag conf s).2 = s.
Proof.
  intros Hprior. revert s. change (preserves
    (_compute_observables_conf confidence_interval model mlag conf)).
  unfold _compute_observables_conf.
  apply preserves_bind_post with (Q := fun prior => count_model prior <> None).
  { apply preserves_lift. }
  { intros s prior s' [= H _]. by apply Hprior. }
  intros prior Hcm.
  apply preserves_bind_post with (Q := fun subset => subset <> INone).
  { apply preserves_find_subset. }
  { by apply find_subset_declared. }
  intros subset Hsub.
  apply preserves_bind; [apply preserves_attr|]. intros n.
  apply preserves_bind; [|intros cells; apply preserves_unit].
  apply preserves_for_each. intros i.
  apply preserves_bind_post with (Q := fun b => exists a, b = Fresh a).
  { apply preserves_index_column. }
  { by apply index_column_fresh. }
  intros b [a ->].
  apply preserves_bind; [apply preserves_renormalize_fresh|]. intros b'.
  auto 10 with preserves.
Qed.

Lemma keeps_preserves {A} (I : ChapmanKolmogorovValidator -> Prop) (c : method A) :
  preserves c -> keeps I c.
Proof. intros Hc s Hs. by rewrite Hc. Qed.

Lemma keeps_bind_post {A B} (I : ChapmanKolmogorovValidator -> Prop)
    (c : method A) (k : A -> method B) (Q : A -> Prop) :
  keeps I c -> returns c Q -> (forall a, Q a -> keeps I (k a)) ->
  keeps I (bind_m c k).
Proof.
  intros Hc HQ Hk s Hs. unfold bind_m.
  specialize (Hc s Hs). destruct (c s) as [[a|e] s1] eqn:E; simpl in Hc.
  - apply Hk; [by eapply HQ|exact Hc].
  - exact Hc.
Qed.

Lemma keeps_bind {A B} (I : ChapmanKolmogorovValidator -> Prop)
    (c : method A) (k : A -> method B) :
  keeps I c -> (forall a, keeps I (k a)) -> keeps I (bind_m c k).
Proof.
  intros Hc Hk. apply keeps_bind_post with (Q := fun _ => True); done.
Qed.

Lemma keeps_for_each {A B} (I : ChapmanKolmogorovValidator -> Prop)
    (body : A -> method B) (xs : list A) :
  (forall x, x ∈ xs -> keeps I (body x)) -> keeps I (for_each body xs).
Proof.
  induction xs as [|x xs IH]; intros Hbody; simpl.
  - apply keeps_preserves, preserves_unit.
  - apply keeps_bind; [apply Hbody; by left|]. intros y.
    apply keeps_bind; [apply IH; intros z Hz; apply Hbody; by right|].
    intros ys. apply keeps_preserves, preserves_unit.
Qed.

Lemma col_write_column_other (i : nat) (c : list float) (P : matrix) :
  i <> 0 -> length c = length P ->
  np.col 0 (write_column i c P) = np.col 0 P /\
  length (write_column i c P) = length P.
Proof.
  intros Hi. unfold np.col, write_column. revert c.
  induction P as [|r P IH]; intros [|x c] Hlen; try done. simpl in *.
  destruct (IH c ltac:(lia)) as [-> ->]. split; [|reflexivity]. f_equal.
  by rewrite list_lookup_insert_ne.
Qed.

Lemma col_write_column_first (c c' : list float) (P : matrix) :
  np.column 0 P = Some c -> length c' = length P ->
  np.col 0 (write_column 0 c' P) = c' /\
  length (write_column 0 c' P) = length P.
Proof.
  unfold np.column, np.col, write_column. revert c c'.
  induction P as [|r P IH]; intros c [|x c'] Hc Hlen; try done.
  simpl in *. destruct r as [|y r]; [done|]. simpl in Hc.
  destruct (mapM _ P) as [c0|] eqn:Hc0; [|done].
  destruct (IH c0 c' eq_refl ltac:(lia)) as [-> ->]. done.
Qed.

Lemma bind_run_ok {A B} (c : method A) (k : A -> method B)
    (s s1 : ChapmanKolmogorovValidator) (a : A) :
  c s = (Ok a, s1) -> bind_m c k s = k a s1.
Proof. intros H. unfold bind_m. by rewrite H. Qed.

Lemma bind_run_raise {A B} (c : method A) (k : A -> method B)
    (s s1 : ChapmanKolmogorovValidator) (e : exn) :
  c s = (Raise e, s1) -> bind_m c k s = (Raise e, s1).
Proof. intros H. unfold bind_m. by rewrite H. Qed.

Lemma attr_run {A} (field : ChapmanKolmogorovValidator -> option A)
    (s : ChapmanKolmogorovValidator) (a : A) :
  field s = Some a -> attr field s = (Ok a, s).
Proof. intros H. unfold attr. by rewrite H. Qed.

Lemma P0_column_run (i : nat) (s : ChapmanKolmogorovValidator) (P : matrix) :
  self_P0 s = Some P ->
  P0_column i s = (from_option IndexError (np.column i P), s).
Proof.
  intros HP. unfold P0_column.
  by rewrite (bind_run_ok _ _ _ _ _ (attr_run _ _ _ HP)).
Qed.

(** [p0sub /= p0sub.sum()] on the window on column [i]: the column of
    [self.P0] is overwritten. *)
Lemma renormalize_view_run (i : nat) (s : ChapmanKolmogorovValidator)
    (P : matrix) (c : list float) :
  self_P0 s = Some P -> np.column i P = Some c ->
  renormalize (ViewP0 i) s =
  (Ok (ViewP0 i),
   set_P0_attr (write_column i (map (fun x => fdiv x (np.sum_all (Mat [c]))) c) P) s).
Proof.
  intros HP Hc.
  assert (Hcol : P0_column i s = (Ok c, s))
    by (by rewrite (P0_column_run i s P HP), Hc).
  unfold renormalize, contents.
  rewrite (bind_run_ok _ _ s s (Mat [c]));
    [|by rewrite (bind_run_ok _ _ _ _ _ Hcol)].
  rewrite (bind_run_ok _ _ _ _ _ (attr_run _ _ _ HP)).
  rewrite (bind_run_ok _ _ _ _ _ Hcol).
  reflexivity.
Qed.

Lemma renormalize_view_raise (i : nat) (s : ChapmanKolmogorovValidator)
    (P : matrix) :
  self_P0 s = Some P -> np.column i P = None ->
  renormalize (ViewP0 i) s = (Raise IndexError, s).
Proof.
  intros HP Hc.
  assert (Hcol : P0_column i s = (Raise IndexError, s))
    by (by rewrite (P0_column_run i s P HP), Hc).
  unfold renormalize, contents.
  apply bind_run_raise. by apply bind_run_raise.
Qed.

(** In-place division of the window on column [i > 0] leaves column 0. *)
Lemma keeps_renormalize_view (c0 : list float) (rows i : nat) :
  i <> 0 -> keeps (first_column_is c0 rows) (renormalize (ViewP0 i)).
Proof.
  intros Hi s (P & HP & Hrows & Hc0).
  destruct (np.column i P) as [c|] eqn:Hc.
  - rewrite (renormalize_view_run i s P c HP Hc).
    pose proof (length_mapM _ _ _ Hc) as Hlen.
    destruct (col_write_column_other i
                (map (fun x => fdiv x (np.sum_all (Mat [c]))) c) P Hi)
      as [Hcol Hl]; [by rewrite length_map|].
    eexists. split; [reflexivity|]. by rewrite Hl, Hcol.
  - rewrite (renormalize_view_raise i s P HP Hc). by exists P.
Qed.

Lemma run_then_keep {A B} (I : ChapmanKolmogorovValidator -> Prop)
    (c : method A) (k : A -> method B) (s : ChapmanKolmogorovValidator) :
  I (c s).2 -> (forall a, keeps I (k a)) -> I (bind_m c k s).2.
Proof.
  intros Hc Hk. unfold bind_m. destruct (c s) as [[a|e] s1]; simpl in *.
  - by apply Hk.
  - exact Hc.
Qed.

(** X17.  When the posterior's prior has no count model, the renormalization in
    [_compute_observables_conf] acts on a window of [self.P0]: whatever the
    outcome of the call, column 0 of the stored [P0] has been divided by
    its sum. *)
Theorem compute_observables_conf_rewrites_P0
    (confidence_interval : list float -> float -> float * float)
    (model : Model) (prior : MarkovStateModel) (mlag : Z) (conf : float)
    (s : ChapmanKolmogorovValidator) (n : nat) (P : matrix) (c : list float) :
  attr_prior model = Ok prior ->
  count_model prior = None ->
  self_nsets s = Some n -> 0 < n ->
  self_P0 s = Some P ->
  np.column 0 P = Some c ->
  exists P',
    self_P0 (_compute_observables_conf confidence_interval model mlag conf s).2
      = Some P' /\
    length P' = length P /\
    np.col 0 P' = map (fun x => fdiv x (np.sum_all (Mat [c]))) c.
Proof.
  intros Hprior Hcm Hn Hpos HP Hc.
  set (target := map (fun x => fdiv x (np.sum_all (Mat [c]))) c).
  change (first_column_is target (length P)
            (_compute_observables_conf confidence_interval model mlag conf s).2).
  unfold _compute_observables_conf.
  rewrite (bind_run_ok _ _ s s prior) by (by unfold lift; rewrite Hprior).
  rewrite (bind_run_ok _ _ s s INone) by (by unfold find_subset; rewrite Hcm).
  rewrite (bind_run_ok _ _ _ _ _ (attr_run _ _ _ Hn)).
  set (body := fun i : nat => bind_m (index_column i INone) _).
  assert (Hseq : seq 0 n = 0 :: seq 1 (n - 1)) by (destruct n; [lia|]; simpl; by rewrite Nat.sub_0_r).
  assert (Hbody : forall i, i <> 0 -> keeps (first_column_is target (length P)) (body i)).
  { intros i Hi. unfold body.
    apply keeps_bind_post with (Q := fun b => b = ViewP0 i).
    - apply keeps_preserves, preserves_index_column.
    - intros s0 b s1. unfold index_column, bind_m, unit_m.
      destruct (P0_column i s0) as [[p0|e] s2]; [|done]. by intros [= <- _].
    - intros b ->. apply keeps_bind; [by apply keeps_renormalize_view|].
      intros b'. apply keeps_preserves. auto 10 with preserves. }
  assert (Hcol : P0_column 0 s = (Ok c, s))
    by (by rewrite (P0_column_run 0 s P HP), Hc).
  assert (Hfirst : first_column_is target (length P) (body 0 s).2).
  { unfold body.
    rewrite (bind_run_ok _ _ s s (ViewP0 0))
      by (by unfold index_column; rewrite (bind_run_ok _ _ _ _ _ Hcol)).
    rewrite (bind_run_ok _ _ _ _ _ (renormalize_view_run 0 s P c HP Hc)).
    apply keeps_preserves; [auto 10 with preserves|].
    pose proof (length_mapM _ _ _ Hc) as Hlen.
    destruct (col_write_column_first c target P Hc) as [Hcol' Hl];
      [by unfold target; rewrite length_map|].
    exists (write_column 0 target P). split; [reflexivity|]. by split. }
  apply run_then_keep; [|intros cells; apply keeps_preserves, preserves_unit].
  generalize dependent body. intros body. rewrite Hseq. intros Hbody Hfirst.
  change (for_each body (0 :: seq 1 (n - 1))) with
    (bind_m (body 0) (fun y => bind_m (for_each body (seq 1 (n - 1)))
                                 (fun ys => unit_m (y :: ys)))).
  apply run_then_keep; [exact Hfirst|]. intros y.
  apply keeps_bind; [|intros ys; apply keeps_preserves, preserves_unit].
  apply keeps_for_each. intros i Hi%elem_of_seq. apply Hbody. lia.
Qed.

(** * The further properties at concrete inputs *)

Lemma compute_observables_shape_witness :
  exists n, self_nsets example_validator = Some n /\
    length hard_partition = n /\
    Forall (fun row => length row = n) hard_partition.
Proof.
  apply (compute_observables_shape (Point reference_model) 1 example_validator
           example_validator hard_partition).
  vm_compute. reflexivity.
Defined.

Lemma compute_observables_conf_shape_witness :
  exists n, self_nsets example_validator = Some n /\
    length [[Fin (95 # 100); Fin (95 # 100)]; [Fin (95 # 100); Fin (95 # 100)]] = n /\
    Forall (fun row => length row = n)
      [[Fin (95 # 100); Fin (95 # 100)]; [Fin (95 # 100); Fin (95 # 100)]] /\
    length [[Fin (95 # 100); Fin (95 # 100)]; [Fin (95 # 100); Fin (95 # 100)]] = n /\
    Forall (fun row => length row = n)
      [[Fin (95 # 100); Fin (95 # 100)]; [Fin (95 # 100); Fin (95 # 100)]].
Proof.
  apply (compute_observables_conf_shape level_probe example_posterior 1 (Fin (1 # 2))
           example_validator example_validator).
  vm_compute. reflexivity.
Defined.

Lemma remap_table_round_trip_witness :
  exists t,
    self_full2active gapped_validator = Some t /\
    (forall k f, [0; 2] !! k = Some f -> t !! f = Some k) /\
    (forall (m' : MarkovStateModel) (cm' : TransitionCountModel) (B : list nat),
       count_model m' = Some cm' -> active_set cm' = Some B -> B ⊆ [0; 2] ->
       exists l, find_subset m' gapped_validator = (Ok (IVec l), gapped_validator) /\
         length l = length B /\
         forall j f k, B !! j = Some f -> [0; 2] !! k = Some f -> l !! j = Some k).
Proof.
  apply (remap_table_round_trip (Point gapped_model) example_validator
           gapped_validator {| active_set := Some [0; 2] |} [0; 2]).
  - vm_compute. reflexivity.
  - reflexivity.
  - reflexivity.
  - apply NoDup_cons. split; [|apply NoDup_singleton].
    intros H%list_elem_of_singleton. lia.
  - reflexivity.
Defined.

Lemma n_states_mismatch_refused_witness :
  test_model_setter (Point one_state_model) example_validator
    = (Raise AssertionError, example_validator).
Proof.
  apply (n_states_mismatch_refused (Point one_state_model) example_validator
           hard_partition).
  - reflexivity.
  - simpl. lia.
Defined.

Lemma missing_count_model_half_bound_witness :
  (test_model_setter (Point unrestricted_model) gapped_validator).1
    = Raise AttributeError /\
  self_test_model (test_model_setter (Point unrestricted_model) gapped_validator).2
    = Some unrestricted_model /\
  self_P0 (test_model_setter (Point unrestricted_model) gapped_validator).2
    = Some (div_rows [[Fin (1 # 2); Fin 0]; [Fin 0; Fin (1 # 2)]]
              (np.sum_axis0 [[Fin (1 # 2); Fin 0]; [Fin 0; Fin (1 # 2)]])) /\
  self_full2active (test_model_setter (Point unrestricted_model) gapped_validator).2
    = self_full2active gapped_validator.
Proof.
  apply (missing_count_model_half_bound (Point unrestricted_model) gapped_validator
           hard_partition [[Fin (1 # 2); Fin 0]; [Fin 0; Fin (1 # 2)]]).
  - reflexivity.
  - reflexivity.
  - vm_compute. reflexivity.
  - reflexivity.
Defined.

Lemma empty_active_set_raises_witness :
  (test_model_setter (Point empty_active_model) example_validator).1
    = Raise ValueError /\
  self_P0 (test_model_setter (Point empty_active_model) example_validator).2
    = Some (div_rows [[Fin (1 # 2); Fin 0]; [Fin 0; Fin (1 # 2)]]
              (np.sum_axis0 [[Fin (1 # 2); Fin 0]; [Fin 0; Fin (1 # 2)]])) /\
  self_full2active (test_model_setter (Point empty_active_model) example_validator).2
    = self_full2active example_validator.
Proof.
  apply (empty_active_set_raises (Point empty_active_model) example_validator
           hard_partition [[Fin (1 # 2); Fin 0]; [Fin 0; Fin (1 # 2)]]
           {| active_set := Some [] |}).
  - reflexivity.
  - reflexivity.
  - vm_compute. reflexivity.
  - reflexivity.
  - reflexivity.
Defined.

Lemma active_set_length_mismatch_raises_witness :
  (test_model_setter (Point long_active_model) example_validator).1
    = Raise ValueError /\
  self_full2active (test_model_setter (Point long_active_model) example_validator).2
    = Some (replicate (max_list [0; 1; 2] + 1) 0).
Proof.
  apply (active_set_length_mismatch_raises (Point long_active_model) example_validator
           hard_partition [[Fin (1 # 2); Fin 0]; [Fin 0; Fin (1 # 2)]]
           {| active_set := Some [0; 1; 2] |} [0; 1; 2]).
  - reflexivity.
  - reflexivity.
  - vm_compute. reflexivity.
  - reflexivity.
  - reflexivity.
  - discriminate.
  - simpl. lia.
  - simpl. lia.
Defined.

Lemma failed_assignment_of_memberships_witness :
  memberships_setter (Vec [Fin 1; Fin 0]) example_validator
    = (Raise ValueError, example_validator) /\
  (memberships_setter (Mat [[Fin 1; Fin 0]; [Fin (1 # 2); Fin 0]]) example_validator).1
    = Raise AssertionError /\
  self_memberships
    (memberships_setter (Mat [[Fin 1; Fin 0]; [Fin (1 # 2); Fin 0]]) example_validator).2
    = Some [[Fin 1; Fin 0]; [Fin (1 # 2); Fin 0]] /\
  self_n_states
    (memberships_setter (Mat [[Fin 1; Fin 0]; [Fin (1 # 2); Fin 0]]) example_validator).2
    = Some (length [[Fin 1; Fin 0]; [Fin (1 # 2); Fin 0]]) /\
  self_nsets
    (memberships_setter (Mat [[Fin 1; Fin 0]; [Fin (1 # 2); Fin 0]]) example_validator).2
    = Some (np.ncols [[Fin 1; Fin 0]; [Fin (1 # 2); Fin 0]]).
Proof.
  split.
  - apply (proj1 (failed_assignment_of_memberships (Vec [Fin 1; Fin 0])
                    example_validator)). reflexivity.
  - apply (proj2 (failed_assignment_of_memberships
                    (Mat [[Fin 1; Fin 0]; [Fin (1 # 2); Fin 0]]) example_validator)
             [[Fin 1; Fin 0]; [Fin (1 # 2); Fin 0]] [Fin (1 # 2); Fin 0] (1 # 2)).
    + reflexivity.
    + reflexivity.
    + right. left.
    + simpl. lia.
    + constructor; [|constructor; [|constructor]]; simpl; unfold Qle; simpl; lia.
    + reflexivity.
    + unfold Qlt. simpl. lia.
Defined.

Lemma cktest_passes_on_other_errors_witness :
  cktest idle_fit example_estimator (Point broken_pcca_model) [[0; 1; 1; 0]] 2 None
         MlagsNone (Fin (95 # 100)) false = Raise ValueError.
Proof.
  apply (cktest_passes_on_other_errors idle_fit example_estimator
           (Point broken_pcca_model) [[0; 1; 1; 0]] 2 MlagsNone (Fin (95 # 100))
           false ValueError).
  - reflexivity.
  - discriminate.
Defined.

Lemma fallback_tests_every_state_witness :
  self_nsets example_validator = Some (n_states reference_model).
Proof.
  apply (fallback_tests_every_state idle_fit example_estimator reference_model
           [[0; 1; 1; 0]] 7 MlagsNone (Fin (95 # 100)) false example_validator).
  - reflexivity.
  - intros s. reflexivity.
  - vm_compute. reflexivity.
Defined.

Lemma P0_has_shape_of_memberships_witness :
  exists P0, self_P0 example_validator = Some P0 /\
    length P0 = length hard_partition /\
    Forall (fun r => length r = np.ncols hard_partition) P0.
Proof.
  apply (P0_has_shape_of_memberships (Point reference_model) example_validator
           example_validator hard_partition).
  - vm_compute. reflexivity.
  - reflexivity.
  - reflexivity.
  - reflexivity.
Defined.

Lemma projection_conserves_mass_witness :
  exists row,
    map_onto_sets (IVec [1; 0]) (Vec [Fin (1 # 3); Fin (2 # 3)])
        (np.ncols hard_partition) example_validator = (Ok row, example_validator) /\
    length row = np.ncols hard_partition /\
    within (3 # 100000) (np.sum row) fone.
Proof.
  apply (projection_conserves_mass example_validator hard_partition
           [[Fin 0; Fin 1]; [Fin 1; Fin 0]] [1; 0] [Fin (1 # 3); Fin (2 # 3)]).
  - reflexivity.
  - reflexivity.
  - simpl. lia.
  - simpl. lia.
  - repeat constructor; simpl; unfold Qle; simpl; lia.
  - reflexivity.
  - reflexivity.
  - repeat constructor; simpl; unfold Qle; simpl; lia.
  - simpl. unfold Qle. simpl. lia.
Defined.

Lemma compute_observables_conf_keeps_object_witness :
  (_compute_observables_conf level_probe example_posterior 1 (Fin (1 # 2))
     example_validator).2 = example_validator.
Proof.
  apply (compute_observables_conf_keeps_object level_probe example_posterior 1
           (Fin (1 # 2)) example_validator).
  intros prior [= <-]. discriminate.
Defined.

Lemma compute_observables_conf_rewrites_P0_witness :
  exists P',
    self_P0 (_compute_observables_conf level_probe unrestricted_posterior 1
               (Fin (1 # 2)) (set_P0_attr [[Fin 2; Fin 0]; [Fin 2; Fin 1]]
                                 example_validator)).2 = Some P' /\
    length P' = length [[Fin 2; Fin 0]; [Fin 2; Fin 1]] /\
    np.col 0 P' = map (fun x => fdiv x (np.sum_all (Mat [[Fin 2; Fin 2]])))
                    [Fin 2; Fin 2].
Proof.
  apply (compute_observables_conf_rewrites_P0 level_probe unrestricted_posterior
           unrestricted_model 1 (Fin (1 # 2))
           (set_P0_attr [[Fin 2; Fin 0]; [Fin 2; Fin 1]] example_validator) 2
           [[Fin 2; Fin 0]; [Fin 2; Fin 1]] [Fin 2; Fin 2]).
  - reflexivity.
  - reflexivity.
  - reflexivity.
  - lia.
  - reflexivity.
  - reflexivity.
Defined.
